(** * generateFileTree.py: the directory walker and its filters

    A shallow embedding of [src/generateFileTree.py] (Python 3, POSIX
    flavour of [os.path], i.e. [os.sep = "/"]) together with the part of
    CPython's [posixpath]/[genericpath] the script calls.

    - Python [str] values are [string]s. The script only compares, splits,
      joins, lowers and replaces single ASCII characters, and all of these
      act in the same way on the code points of a [str] and on the bytes of
      its UTF-8 encoding: [str.lower] maps no character outside [A-Z] to a
      string made of the letters of ["images"], so [s.lower() == 'images']
      is decided by ASCII lowering.
    - The file system is a finite tree: what [os.path.isdir] answers for an
      entry and what [os.listdir] returns (or raises) for a directory.
    - [sys.stderr] is a list of diagnostics threaded through the walk; an
      exception is an explicit [Raise] outcome.
    - [walk_directory] and [main] are the functions as they are written,
      run where [os.getcwd()] returns a path, the interpreter's recursion
      limit is not reached and [print] succeeds.  [Process.main] is the
      run of the script with these three failures and with the two
      readings of the path argument (as given, and after [abspath]). *)

From Stdlib Require Import String Ascii List ZArith Bool Lia Permutation.
Import ListNotations.
Open Scope string_scope.
Open Scope list_scope.

Infix "+++" := String.append (at level 60, right associativity).

(** * The library functions *)

(** ** Python [str] methods used by the script and by [posixpath] *)

Module Str.

(** [s.startswith(p)] *)
Definition startswith (p s : string) : bool := String.prefix p s.

(** [s.endswith(c)] for a one-character [c] *)
Fixpoint endswith (c : ascii) (s : string) : bool :=
  match s with
  | EmptyString => false
  | String a EmptyString => Ascii.eqb a c
  | String _ rest => endswith c rest
  end.

(** [s.split(c)] for a one-character separator: one more piece than there
    are separators, [''.split('/') == ['']]. *)
Fixpoint split (c : ascii) (s : string) : list string :=
  match s with
  | EmptyString => [EmptyString]
  | String a rest =>
      if Ascii.eqb a c then EmptyString :: split c rest
      else match split c rest with
           | [] => [String a EmptyString]
           | piece :: pieces => String a piece :: pieces
           end
  end.

(** [sep.join(l)] *)
Definition join (sep : string) (l : list string) : string :=
  String.concat sep l.

(** [s.replace(old, new)] for one-character [old] and [new] *)
Fixpoint replace (old new : ascii) (s : string) : string :=
  match s with
  | EmptyString => EmptyString
  | String a rest =>
      String (if Ascii.eqb a old then new else a) (replace old new rest)
  end.

Definition lower_char (a : ascii) : ascii :=
  let n := nat_of_ascii a in
  if (65 <=? n)%nat && (n <=? 90)%nat then ascii_of_nat (n + 32) else a.

(** [s.lower()] *)
Fixpoint lower (s : string) : string :=
  match s with
  | EmptyString => EmptyString
  | String a rest => String (lower_char a) (lower rest)
  end.

(** [s.rfind(c)]: the highest index of [c] in [s], [-1] when absent *)
Fixpoint rfind (c : ascii) (s : string) : Z :=
  match s with
  | EmptyString => (-1)%Z
  | String a rest =>
      let r := rfind c rest in
      if (0 <=? r)%Z then (r + 1)%Z
      else if Ascii.eqb a c then 0%Z else (-1)%Z
  end.

(** [s[:i]] for [0 <= i] *)
Definition slice_to (i : Z) (s : string) : string :=
  String.substring 0 (Z.to_nat i) s.

(** [s[i:]] for [0 <= i] *)
Definition slice_from (i : Z) (s : string) : string :=
  String.substring (Z.to_nat i) (String.length s - Z.to_nat i) s.

(** [s.rstrip(c)] *)
Fixpoint rstrip (c : ascii) (s : string) : string :=
  match s with
  | EmptyString => EmptyString
  | String a rest =>
      match rstrip c rest with
      | EmptyString => if Ascii.eqb a c then EmptyString
                       else String a EmptyString
      | kept => String a kept
      end
  end.

(** [c * n] *)
Fixpoint repeat (c : ascii) (n : nat) : string :=
  match n with
  | O => EmptyString
  | S k => String c (repeat c k)
  end.

(** [c in s] for a one-character [c] *)
Fixpoint contains (c : ascii) (s : string) : bool :=
  match s with
  | EmptyString => false
  | String a rest => Ascii.eqb a c || contains c rest
  end.

(** [x in l] for a list of strings *)
Definition mem (x : string) (l : list string) : bool :=
  existsb (String.eqb x) l.

End Str.

(** ** Exceptions and outcomes *)

(** The [OSError] family as far as the script tells its members apart:
    [PermissionError] and [FileNotFoundError] have handlers of their own,
    every other [OSError] (with its [errno]) falls to [except OSError]. *)
Inductive os_error : Type :=
| PermissionError
| FileNotFoundError
| OtherOSError (errno : Z).

Inductive exn : Type :=
| OSError (e : os_error)
| ValueError.

Inductive outcome (A : Type) : Type :=
| Return (a : A)
| Raise (e : exn).
Arguments Return {A} a.
Arguments Raise {A} e.

(** ** The part of [posixpath] the script relies on *)

Module PosixPath.

Definition sep : ascii := "/"%char.

(** [isabs(s)] *)
Definition isabs (s : string) : bool := Str.startswith "/" s.

(** [join(a, b)]: one round of the loop of [posixpath.join] *)
Definition join (path b : string) : string :=
  if Str.startswith "/" b then b
  else if String.eqb path "" || Str.endswith sep path then path +++ b
  else path +++ "/" +++ b.

(** [join(a, *p)] *)
Definition join_all (a : string) (p : list string) : string :=
  fold_left join p a.

(** [dirname(p)] *)
Definition dirname (p : string) : string :=
  let i := (Str.rfind sep p + 1)%Z in
  let head := Str.slice_to i p in
  if negb (String.eqb head "")
     && negb (String.eqb head (Str.repeat sep (String.length head)))
  then Str.rstrip sep head
  else head.

(** [basename(p)] *)
Definition basename (p : string) : string :=
  let i := (Str.rfind sep p + 1)%Z in
  Str.slice_from i p.

(** The loop of [normpath] over the components; [new_comps] grows at its
    end ([append]) and shrinks there ([pop]). *)
Fixpoint normpath_loop (initial_slashes : nat) (comps new_comps : list string)
  : list string :=
  match comps with
  | [] => new_comps
  | comp :: rest =>
      if String.eqb comp "" || String.eqb comp "." then
        normpath_loop initial_slashes rest new_comps
      else if negb (String.eqb comp "..")
              || (Nat.eqb initial_slashes 0
                  && match new_comps with [] => true | _ => false end)
              || match new_comps with
                 | [] => false
                 | _ => String.eqb (last new_comps "") ".."
                 end
      then normpath_loop initial_slashes rest (new_comps ++ [comp])
      else match new_comps with
           | [] => normpath_loop initial_slashes rest new_comps
           | _ => normpath_loop initial_slashes rest (removelast new_comps)
           end
  end.

(** [normpath(path)] *)
Definition normpath (path : string) : string :=
  if String.eqb path "" then "."
  else
    let initial_slashes :=
      if Str.startswith "/" path then
        if Str.startswith "//" path && negb (Str.startswith "///" path)
        then 2%nat else 1%nat
      else 0%nat in
    let comps := Str.split sep path in
    let comps := normpath_loop initial_slashes comps [] in
    let path := Str.join "/" comps in
    let path := Str.repeat sep initial_slashes +++ path in
    if String.eqb path "" then "." else path.

(** [genericpath.commonprefix([l1, l2])] on two lists of components: the
    iteration over [min(m)] against [max(m)] stops at the first position
    where the two differ, which is the longest common leading part. *)
Fixpoint commonprefix (l1 l2 : list string) : list string :=
  match l1, l2 with
  | x :: l1', y :: l2' =>
      if String.eqb x y then x :: commonprefix l1' l2' else []
  | _, _ => []
  end.

Section WithCwd.

(** What [os.getcwd()] returns; [abspath] calls it for relative paths
    only.  That the call can fail is left to [Process.abspath]. *)
Variable cwd : string.

(** [abspath(path)] *)
Definition abspath (path : string) : string :=
  normpath (if isabs path then path else join cwd path).

(** [relpath(path, start)]; an empty [path] raises [ValueError]. *)
Definition relpath (path start : string) : outcome string :=
  if String.eqb path "" then Raise ValueError
  else
    let nonempty x := negb (String.eqb x "") in
    let start_list := filter nonempty (Str.split sep (abspath start)) in
    let path_list := filter nonempty (Str.split sep (abspath path)) in
    let i := List.length (commonprefix start_list path_list) in
    let rel_list :=
      List.repeat ".." (List.length start_list - i) ++ skipn i path_list in
    match rel_list with
    | [] => Return "."
    | a :: p => Return (join_all a p)
    end.

End WithCwd.

End PosixPath.

(** * The program *)

(** ** Data model *)

(** One element of the output list: [{"folder": ..., "name": ...}] *)
Record FileRecord : Type := mkFileRecord {
  folder : string;
  name : string
}.

(** What the walk observes of a file-system object: [os.path.isdir] is
    [False] for [NonDir]; for a directory [os.listdir] either returns the
    entries (in listing order) or raises. *)
#[local] Unset Elimination Schemes.
Inductive node : Type :=
| NonDir
| Dir (items : list (string * node))
| DirFail (e : os_error).
#[local] Set Elimination Schemes.

(** Induction over a tree, with the hypothesis for every entry of a listing *)
Section NodeInduction.

Variable P : node -> Prop.
Hypothesis P_NonDir : P NonDir.
Hypothesis P_Dir :
  forall items, Forall (fun entry => P (snd entry)) items -> P (Dir items).
Hypothesis P_DirFail : forall e, P (DirFail e).

Fixpoint node_ind (fs : node) : P fs :=
  match fs with
  | NonDir => P_NonDir
  | Dir items =>
      P_Dir items
        ((fix entries (l : list (string * node))
            : Forall (fun entry => P (snd entry)) l :=
            match l with
            | [] => Forall_nil _
            | entry :: rest =>
                Forall_cons entry (node_ind (snd entry)) (entries rest)
            end) items)
  | DirFail e => P_DirFail e
  end.

End NodeInduction.

Definition isdir (fs : node) : bool :=
  match fs with
  | NonDir => false
  | _ => true
  end.

(** [errno.ENOTDIR], raised by [os.listdir] on something that is no
    directory *)
Definition ENOTDIR : Z := 20.

(** The lines written to [sys.stderr], by the statement that prints them *)
Inductive diag : Type :=
| WarnDirNoPermission (dir_path : string)
| ErrDirMissing (dir_path : string)
| WarnItemNoPermission (item_path : string)
| WarnItemOSError (item_path : string) (e : os_error)
| ErrRootMissing (root_dir : string)
| ErrRootNotDir (root_dir : string)
| Traceback (e : exn)
| TracebackRecursionError
| TracebackUnicodeEncodeError.

(** ** The script *)

Definition should_skip_directory (dir_name base_path : string) : bool :=
  if String.eqb (Str.lower dir_name) "images" then true
  else if String.eqb dir_name ".git" then true
  else false.

Section Script.

Variable cwd : string.

Definition should_include_file (file_path root_dir : string) : outcome bool :=
  match PosixPath.relpath cwd file_path root_dir with
  | Raise e => Raise e
  | Return rel_path =>
      if String.eqb (PosixPath.dirname rel_path) "." then Return false
      else if Str.mem "images" (Str.split PosixPath.sep rel_path)
           then Return false
      else Return true
  end.

Section Loop.

(** The recursive call [walk_directory(item_path, rel_path, root_dir)] *)
Variable recurse :
  string -> string -> node -> list diag -> outcome (list FileRecord) * list diag.
Variables dir_path base root_dir : string.

(** The body of the [try] for one entry: the list [results] afterwards,
    or the exception that left the block ([results] is then as it was). *)
Definition visit (item : string) (fs : node) (results : list FileRecord)
  (stderr : list diag) : outcome (list FileRecord) * list diag :=
  let item_path := PosixPath.join dir_path item in
  let rel_path := Str.replace "\" "/" (PosixPath.join base item) in
  if isdir fs then
    if should_skip_directory item base then (Return results, stderr)
    else
      match recurse item_path rel_path fs stderr with
      | (Return sub, stderr) => (Return (results ++ sub), stderr)
      | (Raise e, stderr) => (Raise e, stderr)
      end
  else
    match should_include_file item_path root_dir with
    | Raise e => (Raise e, stderr)
    | Return false => (Return results, stderr)
    | Return true =>
        let folder_path := Str.replace "\" "/" base in
        (Return (results ++ [mkFileRecord folder_path item]), stderr)
    end.

(** [for item in items: try: ... except PermissionError: ... except
    OSError as e: ...], then [return results] *)
Fixpoint for_items (items : list (string * node)) (results : list FileRecord)
  (stderr : list diag) {struct items}
  : outcome (list FileRecord) * list diag :=
  match items with
  | [] => (Return results, stderr)
  | (item, fs) :: rest =>
      let item_path := PosixPath.join dir_path item in
      match visit item fs results stderr with
      | (Return results, stderr) => for_items rest results stderr
      | (Raise (OSError PermissionError), stderr) =>
          for_items rest results (stderr ++ [WarnItemNoPermission item_path])
      | (Raise (OSError e), stderr) =>
          for_items rest results (stderr ++ [WarnItemOSError item_path e])
      | (Raise e, stderr) => (Raise e, stderr)
      end
  end.

End Loop.

(** [walk_directory(dir_path, base, root_dir)] on the object [fs] found at
    [dir_path]: the match on [fs] is the outcome of [os.listdir(dir_path)],
    which on a non-directory raises [NotADirectoryError], an [OSError]
    without a handler here.  A [dir_path] with a NUL character, which
    [os.listdir] refuses with [ValueError], has no such object: no name of
    a listing holds one, and [os.path.exists] is [False] for such an
    argument of [main].  The calls are not counted: the [RecursionError]
    of a tree deeper than the interpreter's limit is an event of
    [Process.main]. *)
Fixpoint walk_directory (dir_path base : string) (root_dir : option string)
  (fs : node) (stderr : list diag) {struct fs}
  : outcome (list FileRecord) * list diag :=
  let root_dir := match root_dir with None => dir_path | Some r => r end in
  match fs with
  | DirFail PermissionError =>
      (Return [], stderr ++ [WarnDirNoPermission dir_path])
  | DirFail FileNotFoundError =>
      (Return [], stderr ++ [ErrDirMissing dir_path])
  | DirFail e => (Raise (OSError e), stderr)
  | NonDir => (Raise (OSError (OtherOSError ENOTDIR)), stderr)
  | Dir items =>
      for_items
        (fun item_path rel_path sub =>
           walk_directory item_path rel_path (Some root_dir) sub)
        dir_path base root_dir items [] stderr
  end.

(** [sys.argv[1] if len(sys.argv) > 1 else '.'] *)
Definition root_argument (argv : list string) : string :=
  match argv with
  | _ :: a :: _ => a
  | _ => "."
  end.

(** What the process leaves behind: the list handed to [json.dumps] and
    printed (if any), the diagnostics, the exit status. *)
Record run : Type := mkRun {
  stdout : option (list FileRecord);
  stderr_of : list diag;
  exit_code : Z
}.

(** [main()]: [argv] is [sys.argv]; [target] is what the file system holds
    at the path argument ([None] when [os.path.exists] is [False]). An
    exception that nothing catches ends the interpreter with a traceback
    and status 1.  This is the run in which [os.getcwd()] returns [cwd],
    the path [abspath] returns names [target] too, the recursion limit is
    not reached and [print] can encode the output; [Process.main] below
    is the run without these assumptions. *)
Definition main (argv : list string) (target : option node) : run :=
  let root_dir := root_argument argv in
  match target with
  | None => mkRun None [ErrRootMissing root_dir] 1
  | Some fs =>
      if negb (isdir fs) then mkRun None [ErrRootNotDir root_dir] 1
      else
        let root_dir := PosixPath.abspath cwd root_dir in
        match walk_directory root_dir "" (Some root_dir) fs [] with
        | (Return files, stderr) => mkRun (Some files) stderr 0
        | (Raise e, stderr) => mkRun None (stderr ++ [Traceback e]) 1
        end
  end.

End Script.

(** ** The process *)

(** [main] above is the run in which nothing but the walk can fail.  The
    run of the script as the interpreter makes it depends on more, and
    each of these ends it with a traceback and status 1:
    - [os.path.abspath] calls [os.getcwd()] for a relative argument, which
      raises [FileNotFoundError] when the working directory is gone;
    - [os.path.exists] and [os.path.isdir] look at the argument as it was
      given, [os.listdir] at the path [abspath] has made of it, and these
      need not name one object (a symbolic link followed by [..]);
    - [walk_directory] calls itself once per level of the tree, and no
      handler of the script catches the [RecursionError] of the
      interpreter's recursion limit;
    - [print] raises [UnicodeEncodeError] when [sys.stdout] cannot encode
      a folder or a name (a name that is no valid UTF-8, say). *)
Module Process.

Record environment : Type := mkEnvironment {
  (** [os.getcwd()]: [None] when it raises [FileNotFoundError] *)
  getcwd : option string;
  (** what [os.path.exists] and [os.path.isdir] find at the argument as
      given ([None]: nothing) *)
  at_argument : option node;
  (** what [os.listdir] meets at [abspath] of the argument
      ([DirFail FileNotFoundError]: nothing) *)
  at_root : node;
  (** whether the walk reaches the recursion limit, and how many lines it
      has printed by then; the frames are not counted here *)
  recursion_error : option nat;
  (** whether [sys.stdout] can encode a text *)
  stdout_encodes : string -> bool
}.

(** [os.path.abspath(path)], with the failure of [os.getcwd()] *)
Definition abspath (E : environment) (path : string) : outcome string :=
  if PosixPath.isabs path then Return (PosixPath.normpath path)
  else
    match getcwd E with
    | None => Raise (OSError FileNotFoundError)
    | Some cwd => Return (PosixPath.normpath (PosixPath.join cwd path))
    end.

(** The working directory the walk is given; with the absolute root of
    [main] it never asks for it. *)
Definition working_directory (E : environment) : string :=
  match getcwd E with
  | Some cwd => cwd
  | None => ""
  end.

(** [print(json.dumps(files, ensure_ascii=False, indent=2))] succeeds:
    folders and names are written as they are, between ASCII text. *)
Definition encodable (E : environment) (files : list FileRecord) : bool :=
  forallb
    (fun rec => stdout_encodes E (folder rec) && stdout_encodes E (name rec))
    files.

(** [main()] as the interpreter runs it.  A [RecursionError] passes
    every handler of the script, so that it ends the walk with the lines
    printed until then and nothing more. *)
Definition main (E : environment) (argv : list string) : run :=
  let root_dir := root_argument argv in
  match at_argument E with
  | None => mkRun None [ErrRootMissing root_dir] 1
  | Some fs =>
      if negb (isdir fs) then mkRun None [ErrRootNotDir root_dir] 1
      else
        match abspath E root_dir with
        | Raise e => mkRun None [Traceback e] 1
        | Return root_dir =>
            let walk :=
              walk_directory (working_directory E) root_dir ""
                (Some root_dir) (at_root E) [] in
            match recursion_error E with
            | Some lines =>
                mkRun None (firstn lines (snd walk) ++ [TracebackRecursionError])
                  1
            | None =>
                match walk with
                | (Raise e, stderr) => mkRun None (stderr ++ [Traceback e]) 1
                | (Return files, stderr) =>
                    if encodable E files then mkRun (Some files) stderr 0
                    else
                      mkRun None (stderr ++ [TracebackUnicodeEncodeError]) 1
                end
            end
        end
  end.

End Process.

(** * Notions used in the statements *)

(** ** Views of a run *)

(** The records a call hands back: none when it raised *)
Definition records_of (r : outcome (list FileRecord) * list diag)
  : list FileRecord :=
  match fst r with
  | Return l => l
  | Raise _ => []
  end.

(** A call that began with [results] and [stderr] in place of empty ones *)
Definition frame (results : list FileRecord) (stderr : list diag)
  (r : outcome (list FileRecord) * list diag)
  : outcome (list FileRecord) * list diag :=
  (match fst r with
   | Return l => Return (results ++ l)
   | Raise e => Raise e
   end, stderr ++ snd r).

(** [root_dir] after [if root_dir is None: root_dir = dir_path] *)
Definition resolved (dir_path : string) (root_dir : option string) : string :=
  match root_dir with
  | None => dir_path
  | Some r => r
  end.

(** What one entry of a listing adds to [results] *)
Definition entry_records (cwd dir_path base root_dir : string)
  (entry : string * node) : list FileRecord :=
  let (item, fs) := entry in
  let item_path := PosixPath.join dir_path item in
  let rel_path := Str.replace "\" "/" (PosixPath.join base item) in
  if isdir fs then
    if should_skip_directory item base then []
    else records_of (walk_directory cwd item_path rel_path (Some root_dir) fs [])
  else
    match should_include_file cwd item_path root_dir with
    | Return true => [mkFileRecord (Str.replace "\" "/" base) item]
    | _ => []
    end.



(** Two file-system states that differ at most in the order in which
    [os.listdir] returns the entries of each directory *)
Inductive same_tree : node -> node -> Prop :=
| same_NonDir : same_tree NonDir NonDir
| same_DirFail e : same_tree (DirFail e) (DirFail e)
| same_Dir items1 items2 :
    same_listing items1 items2 -> same_tree (Dir items1) (Dir items2)
with same_listing : list (string * node) -> list (string * node) -> Prop :=
| same_nil : same_listing [] []
| same_entry item fs1 fs2 rest1 rest2 :
    same_tree fs1 fs2 -> same_listing rest1 rest2 ->
    same_listing ((item, fs1) :: rest1) ((item, fs2) :: rest2)
| same_swap entry1 entry2 rest1 rest2 :
    same_listing rest1 rest2 ->
    same_listing (entry1 :: entry2 :: rest1) (entry2 :: entry1 :: rest2)
| same_trans items1 items2 items3 :
    same_listing items1 items2 -> same_listing items2 items3 ->
    same_listing items1 items3.

Scheme same_tree_mut := Minimality for same_tree Sort Prop
  with same_listing_mut := Minimality for same_listing Sort Prop.

(** ** Trees the walk can meet *)

(** A name [os.listdir] can return on POSIX: not empty, no ["/"] in it, and
    neither ["."] nor [".."] *)
Definition entry_name (n : string) : bool :=
  negb (String.eqb n "") && negb (Str.contains "/" n)
  && negb (String.eqb n ".") && negb (String.eqb n "..").

(** [ok] holds of every entry (its name and what it is) of every listing *)
Fixpoint all_entries (ok : string -> node -> bool) (fs : node) : bool :=
  match fs with
  | Dir items =>
      forallb (fun entry =>
                 ok (fst entry) (snd entry) && all_entries ok (snd entry))
        items
  | _ => true
  end.

(** Every name in the tree is one [os.listdir] can return. *)
Definition listable (fs : node) : bool :=
  all_entries (fun n _ => entry_name n) fs.

(** The tree without the directories [should_skip_directory] names, at
    every depth *)
Fixpoint prune (fs : node) : node :=
  match fs with
  | Dir items =>
      Dir (flat_map
             (fun entry =>
                if isdir (snd entry) && should_skip_directory (fst entry) ""
                then []
                else [(fst entry, prune (snd entry))])
             items)
  | _ => fs
  end.

(** The non-directories below [fs] that the walk comes to, in depth-first
    listing order, each with the names of the directories that lead to it
    from [fs] ([segs] are those above [fs]): directories that cannot be
    listed hold none, skipped directories are not entered. *)
Fixpoint reachable_files (segs : list string) (fs : node)
  : list (list string * string) :=
  match fs with
  | Dir items =>
      flat_map
        (fun entry =>
           if isdir (snd entry) then
             if should_skip_directory (fst entry) "" then []
             else reachable_files (segs ++ [fst entry]) (snd entry)
           else [(segs, fst entry)])
        items
  | _ => []
  end.

(** A path as [abspath] returns it: one or two slashes, then the
    components with single slashes between them *)
Definition abs_path (slashes : nat) (comps : list string) : string :=
  Str.repeat "/" slashes +++ Str.join "/" comps.

(** [root_dir] is absolute and normalised, as [main] makes it *)
Definition normalised_root (root_dir : string) : bool :=
  PosixPath.isabs root_dir && String.eqb (PosixPath.normpath root_dir) root_dir.

(** No directory of the tree has a backslash in its name. *)
Definition no_backslash_dirs (fs : node) : bool :=
  all_entries (fun n sub => negb (isdir sub) || negb (Str.contains "\" n)) fs.

(** No directory of the tree has a name that ends in a backslash. *)
Definition no_trailing_backslash_dirs (fs : node) : bool :=
  all_entries (fun n sub => negb (isdir sub) || negb (Str.endswith "\" n)) fs.

(** The path the walk builds for the entry [n] below the directories
    [segs] of the root *)
Definition file_path (root_dir : string) (segs : list string) (n : string)
  : string :=
  PosixPath.join_all root_dir (segs ++ [n]).

(** The file at [segs], [n] passes [should_include_file]. *)
Definition admitted (cwd root_dir : string) (file : list string * string)
  : bool :=
  match should_include_file cwd (file_path root_dir (fst file) (snd file))
          root_dir with
  | Return true => true
  | _ => false
  end.

(** The record the specification describes for the file at [segs], [n]:
    the way from the root to its parent with forward slashes, and its base
    name *)
Definition record_for (root_dir : string) (file : list string * string)
  : FileRecord :=
  mkFileRecord
    (Str.replace "\" "/" (Str.join "/" (fst file)))
    (PosixPath.basename (file_path root_dir (fst file) (snd file))).

(** [base] is the slash-normalised way down [segs] and can take one more
    name after a slash. *)
Definition base_for (segs : list string) (base : string) : Prop :=
  base = Str.replace "\" "/" (Str.join "/" segs)
  /\ (segs <> [] -> base <> "" /\ Str.endswith "/" base = false).

(** A call on [fs] with a non-empty path does not end in [ValueError]. *)
Definition never_ValueError
  (recurse : string -> string -> node -> list diag
             -> outcome (list FileRecord) * list diag) (fs : node) : Prop :=
  forall ip rp err, ip <> "" -> fst (recurse ip rp fs err) <> Raise ValueError.

(** ** Notions for the further properties *)

(** What one entry of a listing adds to [stderr] *)
Definition entry_diags (cwd dir_path base root_dir : string)
  (entry : string * node) : list diag :=
  let (item, fs) := entry in
  let item_path := PosixPath.join dir_path item in
  let rel_path := Str.replace "\" "/" (PosixPath.join base item) in
  if isdir fs then
    if should_skip_directory item base then []
    else
      match walk_directory cwd item_path rel_path (Some root_dir) fs [] with
      | (Return _, printed) => printed
      | (Raise (OSError PermissionError), printed) =>
          printed ++ [WarnItemNoPermission item_path]
      | (Raise (OSError e), printed) =>
          printed ++ [WarnItemOSError item_path e]
      | (Raise ValueError, printed) => printed
      end
  else [].

(** [os.listdir] succeeds on [fs] if it is a directory. *)
Definition lists (fs : node) : bool :=
  match fs with
  | DirFail _ => false
  | _ => true
  end.

(** Every directory of the tree can be listed. *)
Definition all_listed (fs : node) : bool :=
  lists fs && all_entries (fun _ sub => lists sub) fs.

(** The record [rec] with [folder] read below the folder [base] *)
Definition below (base : string) (rec : FileRecord) : FileRecord :=
  mkFileRecord
    (if String.eqb (folder rec) "" then base
     else base +++ "/" +++ folder rec)
    (name rec).

(** The relative base [inner] of a walk begun with [""], in a walk begun
    with [base] *)
Definition rebased (base inner : string) : string :=
  if String.eqb inner "" then base else base +++ "/" +++ inner.

(** A name on the way to a file the walk reaches: one out of a listing
    that [should_skip_directory] lets pass *)
Definition entered (seg : string) : bool :=
  entry_name seg && negb (should_skip_directory seg "").

(** The diagnostic is the warning of the handler [except PermissionError]
    around an entry. *)
Definition is_item_permission_warning (d : diag) : bool :=
  match d with
  | WarnItemNoPermission _ => true
  | _ => false
  end.

(** The line of the handler around an entry when the listing of the entry
    raises an [OSError] that [walk_directory] does not handle *)
Definition handler_line (item_path : string) (sub : node) : list diag :=
  match sub with
  | DirFail (OtherOSError errno) =>
      [WarnItemOSError item_path (OtherOSError errno)]
  | _ => []
  end.

(** One line for every directory that the walk enters and cannot list, in
    the order of the walk, for the tree [fs] found at [dir_path] *)
Fixpoint diagnostics (dir_path : string) (fs : node) : list diag :=
  match fs with
  | Dir items =>
      flat_map
        (fun entry =>
           let item_path := PosixPath.join dir_path (fst entry) in
           if isdir (snd entry)
              && negb (should_skip_directory (fst entry) "")
           then diagnostics item_path (snd entry)
                ++ handler_line item_path (snd entry)
           else [])
        items
  | DirFail PermissionError => [WarnDirNoPermission dir_path]
  | DirFail FileNotFoundError => [ErrDirMissing dir_path]
  | _ => []
  end.

(** No string occurs twice in [l]. *)
Fixpoint no_repeat (l : list string) : bool :=
  match l with
  | [] => true
  | x :: rest => negb (Str.mem x rest) && no_repeat rest
  end.

(** The names of every listing are pairwise different, as the entries of a
    directory are. *)
Fixpoint distinct_names (fs : node) : bool :=
  match fs with
  | Dir items =>
      no_repeat (map fst items)
      && forallb (fun entry => distinct_names (snd entry)) items
  | _ => true
  end.

(** ** Notions for the process *)



(** [os.getcwd()] is called for the path and fails. *)
Definition cwd_missing (E : Process.environment) (path : string) : bool :=
  negb (PosixPath.isabs path)
  && match Process.getcwd E with None => true | Some _ => false end.



(** A [sys.stdout] with the encoding [ascii] *)
Definition ascii_only (s : string) : bool :=
  forallb (fun c => (nat_of_ascii c <? 128)%nat) (list_ascii_of_string s).

(** [rel_path] of the directory reached from [base] through the names
    [segs], as the calls compute it one after the other *)
Definition rel_path_at (base : string) (segs : list string) : string :=
  fold_left (fun b seg => Str.replace "\" "/" (PosixPath.join b seg)) segs base.

(** [n] is a non-directory of the tree [fs], in the directory reached from
    [fs] through the directories [segs], none of which
    [should_skip_directory] names. *)
Fixpoint file_at (segs : list string) (n : string) (fs : node) {struct segs}
  : Prop :=
  match fs with
  | Dir items =>
      match segs with
      | [] => In (n, NonDir) items
      | seg :: rest =>
          should_skip_directory seg "" = false
          /\ exists sub, In (seg, sub) items /\ file_at rest n sub
      end
  | _ => False
  end.

(** * Facts about strings and paths *)

(** ** Strings: splitting and joining *)

Module StrFacts.

Lemma append_assoc s t u : (s +++ t) +++ u = s +++ t +++ u.
Proof.
  induction s as [|a s IH]; simpl; congruence.
Qed.

Lemma append_eq_nil s t : s +++ t = "" -> s = "" /\ t = "".
Proof.
  destruct s; simpl; [auto | discriminate].
Qed.

Lemma contains_app c s t :
  Str.contains c (s +++ t) = Str.contains c s || Str.contains c t.
Proof.
  induction s as [|a s IH]; simpl; [reflexivity|].
  now rewrite IH, orb_assoc.
Qed.

Lemma split_nonempty c s : Str.split c s <> [].
Proof.
  destruct s as [|a s]; simpl; [discriminate|].
  destruct (Ascii.eqb a c); [discriminate|].
  destruct (Str.split c s); discriminate.
Qed.

Lemma split_cons_other c a s :
  Ascii.eqb a c = false ->
  Str.split c (String a s)
  = String a (hd "" (Str.split c s)) :: tl (Str.split c s).
Proof.
  intros H. simpl. rewrite H.
  pose proof (split_nonempty c s).
  destruct (Str.split c s); [contradiction | reflexivity].
Qed.

(** A string without the separator is one piece. *)
Lemma split_without c s : Str.contains c s = false -> Str.split c s = [s].
Proof.
  induction s as [|a s IH]; simpl; [reflexivity|].
  intros H. apply orb_false_iff in H as [Ha Hs].
  rewrite Ha, (IH Hs). reflexivity.
Qed.

(** No piece holds the separator. *)
Lemma split_pieces c s :
  Forall (fun piece => Str.contains c piece = false) (Str.split c s).
Proof.
  induction s as [|a s IH]; simpl.
  - now constructor.
  - destruct (Ascii.eqb a c) eqn:Ha.
    + now constructor.
    + destruct (Str.split c s) as [|piece pieces]; simpl.
      * constructor; [simpl; now rewrite Ha | constructor].
      * inversion IH; subst. constructor; [simpl; now rewrite Ha | assumption].
Qed.

(** Splitting at a separator already in sight *)
Lemma split_app_sep c s t :
  Str.split c (s +++ String c t) = Str.split c s ++ Str.split c t.
Proof.
  induction s as [|a s IH].
  - simpl. now rewrite Ascii.eqb_refl.
  - cbn [String.append]. destruct (Ascii.eqb a c) eqn:Ha.
    + simpl. rewrite Ha, IH. reflexivity.
    + rewrite !split_cons_other, IH by assumption.
      pose proof (split_nonempty c s).
      destruct (Str.split c s); [contradiction | reflexivity].
Qed.

Lemma join_cons sep x y l :
  Str.join sep (x :: y :: l) = x +++ sep +++ Str.join sep (y :: l).
Proof.
  reflexivity.
Qed.

Lemma join_snoc sep l x :
  l <> [] -> Str.join sep (l ++ [x]) = Str.join sep l +++ sep +++ x.
Proof.
  induction l as [|y l IH]; [congruence|]. intros _.
  destruct l as [|z l].
  - reflexivity.
  - change ((y :: z :: l) ++ [x]) with (y :: (z :: l) ++ [x]).
    cbn [app]. rewrite !join_cons.
    change (z :: l ++ [x]) with ((z :: l) ++ [x]).
    rewrite IH by discriminate. now rewrite !append_assoc.
Qed.

(** Joining pieces without separator and splitting again gives them back. *)
Lemma split_join c l :
  l <> [] ->
  Forall (fun piece => Str.contains c piece = false) l ->
  Str.split c (Str.join (String c "") l) = l.
Proof.
  intros Hl H. induction H as [|x l Hx _ IH]; [congruence|].
  destruct l as [|y l].
  - simpl. now apply split_without.
  - rewrite join_cons. cbn [String.append].
    rewrite split_app_sep, IH by discriminate.
    now rewrite (split_without c x Hx).
Qed.

End StrFacts.

(** ** Names, [join] and the relative base *)

Module PathFacts.

Import StrFacts.

Lemma all_entries_Dir ok items :
  all_entries ok (Dir items) = true ->
  Forall (fun entry => ok (fst entry) (snd entry) = true
                       /\ all_entries ok (snd entry) = true) items.
Proof.
  cbn [all_entries]. intros H. apply Forall_forall. intros entry Hin.
  rewrite forallb_forall in H. specialize (H entry Hin).
  now apply andb_true_iff in H.
Qed.

Lemma entry_name_spec n :
  entry_name n = true ->
  n <> "" /\ Str.contains "/" n = false /\ n <> "." /\ n <> "..".
Proof.
  unfold entry_name. rewrite !andb_true_iff, !negb_true_iff.
  intros [[[H1 H2] H3] H4]. repeat split; try assumption;
    now apply String.eqb_neq.
Qed.

Lemma startswith_char c a s :
  Str.startswith (String c "") (String a s) = Ascii.eqb c a.
Proof.
  unfold Str.startswith. cbn [String.prefix].
  destruct (ascii_dec c a) as [->|Hne].
  - rewrite Ascii.eqb_refl. now destruct s.
  - symmetry. now apply Ascii.eqb_neq.
Qed.

Lemma startswith_sep_contains s :
  Str.contains "/" s = false -> Str.startswith "/" s = false.
Proof.
  destruct s as [|a s]; [reflexivity|].
  rewrite startswith_char. cbn [Str.contains].
  rewrite Ascii.eqb_sym. intros H. now apply orb_false_iff in H.
Qed.

Lemma endswith_app c s t :
  t <> "" -> Str.endswith c (s +++ t) = Str.endswith c t.
Proof.
  intros Ht. induction s as [|a s IH]; [reflexivity|].
  cbn [String.append Str.endswith]. rewrite IH.
  destruct (s +++ t) eqn:E; [|reflexivity].
  apply append_eq_nil in E. now destruct E.
Qed.

Lemma endswith_contains c s :
  Str.endswith c s = true -> Str.contains c s = true.
Proof.
  induction s as [|a s IH]; [discriminate|].
  cbn [Str.endswith Str.contains]. destruct s as [|b s].
  - intros ->. reflexivity.
  - intros H. rewrite (IH H). apply orb_true_r.
Qed.

(** [posixpath.join] with a name out of a listing *)
Lemma join_entry path item :
  Str.contains "/" item = false ->
  PosixPath.join path item
  = if String.eqb path "" || Str.endswith "/" path then path +++ item
    else path +++ "/" +++ item.
Proof.
  intros H. unfold PosixPath.join.
  now rewrite (startswith_sep_contains item H).
Qed.

Lemma replace_without old new s :
  Str.contains old s = false -> Str.replace old new s = s.
Proof.
  induction s as [|a s IH]; [reflexivity|]. cbn.
  intros H. apply orb_false_iff in H as [Ha Hs]. now rewrite Ha, IH.
Qed.

Lemma replace_app old new s t :
  Str.replace old new (s +++ t) = Str.replace old new s +++ Str.replace old new t.
Proof.
  induction s as [|a s IH]; cbn; congruence.
Qed.

Lemma replace_clears old new s :
  Ascii.eqb new old = false -> Str.contains old (Str.replace old new s) = false.
Proof.
  intros Hne. induction s as [|a s IH]; [reflexivity|]. cbn.
  rewrite IH, orb_false_r.
  destruct (Ascii.eqb a old) eqn:Ha; assumption.
Qed.

Lemma replace_idempotent old new s :
  Ascii.eqb new old = false ->
  Str.replace old new (Str.replace old new s) = Str.replace old new s.
Proof.
  intros Hne. apply replace_without. now apply replace_clears.
Qed.

End PathFacts.

(** ** [rfind], slices, [basename] and [dirname] *)

Module SliceFacts.

Import StrFacts PathFacts.

Lemma rfind_lower c s : (-1 <= Str.rfind c s)%Z.
Proof.
  induction s as [|a s IH]; cbn [Str.rfind]; [lia|].
  destruct (0 <=? Str.rfind c s)%Z eqn:E.
  - apply Z.leb_le in E. lia.
  - destruct (Ascii.eqb a c); lia.
Qed.

Lemma rfind_found c s : (0 <=? Str.rfind c s)%Z = Str.contains c s.
Proof.
  induction s as [|a s IH]; cbn [Str.rfind Str.contains]; [reflexivity|].
  rewrite <- IH.
  destruct (0 <=? Str.rfind c s)%Z eqn:E.
  - apply Z.leb_le in E. rewrite orb_true_r. apply Z.leb_le. lia.
  - rewrite orb_false_r. now destruct (Ascii.eqb a c).
Qed.

Lemma rfind_without c s : Str.contains c s = false -> Str.rfind c s = (-1)%Z.
Proof.
  intros H. rewrite <- rfind_found in H. apply Z.leb_gt in H.
  pose proof (rfind_lower c s). lia.
Qed.

Lemma substring_whole s : String.substring 0 (String.length s) s = s.
Proof.
  induction s as [|a s IH]; cbn; congruence.
Qed.

(** [basename], one character at a time *)
Lemma basename_cons a s :
  PosixPath.basename (String a s)
  = if Str.contains "/" s then PosixPath.basename s
    else if Ascii.eqb a "/" then s else String a s.
Proof.
  unfold PosixPath.basename, Str.slice_from, PosixPath.sep.
  cbn [Str.rfind]. rewrite rfind_found.
  destruct (Str.contains "/" s) eqn:Hs.
  - rewrite <- rfind_found in Hs. apply Z.leb_le in Hs.
    replace (Z.to_nat (Str.rfind "/" s + 1 + 1))
      with (S (Z.to_nat (Str.rfind "/" s + 1))) by lia.
    reflexivity.
  - destruct (Ascii.eqb a "/").
    + change (Z.to_nat (0 + 1)) with 1%nat.
      cbn [String.length Nat.sub String.substring].
      rewrite Nat.sub_0_r. apply substring_whole.
    + change (Z.to_nat (-1 + 1)) with 0%nat.
      cbn [String.length Nat.sub String.substring].
      now rewrite substring_whole.
Qed.

Lemma basename_app x t :
  x = "" \/ Str.endswith "/" x = true ->
  Str.contains "/" t = false ->
  PosixPath.basename (x +++ t) = t.
Proof.
  intros Hx Ht. induction x as [|a x IH].
  - cbn [String.append]. destruct t as [|b t]; [reflexivity|].
    rewrite basename_cons. cbn [Str.contains] in Ht.
    apply orb_false_iff in Ht as [Hb Ht]. now rewrite Ht, Hb.
  - destruct Hx as [Hx|Hx]; [discriminate|].
    cbn [String.append]. rewrite basename_cons, contains_app, Ht, orb_false_r.
    destruct x as [|b x].
    + cbn [Str.endswith] in Hx. cbn. now rewrite Hx.
    + change (Str.endswith "/" (String b x) = true) in Hx.
      rewrite (endswith_contains _ _ Hx). apply IH. now right.
Qed.

(** The base name of an entry's path is the entry's name. *)
Lemma basename_join path item :
  Str.contains "/" item = false ->
  PosixPath.basename (PosixPath.join path item) = item.
Proof.
  intros H. rewrite join_entry by assumption.
  destruct (String.eqb_spec path "") as [->|Hp]; cbn [orb].
  - apply basename_app; auto.
  - destruct (Str.endswith "/" path) eqn:E.
    + apply basename_app; auto.
    + rewrite <- append_assoc. apply basename_app; [|assumption].
      right. now rewrite endswith_app.
Qed.

Lemma endswith_replace old new s :
  Str.endswith new (Str.replace old new s)
  = Str.endswith new s || Str.endswith old s.
Proof.
  induction s as [|a s IH]; [reflexivity|].
  destruct s as [|b s].
  - cbn. destruct (Ascii.eqb a old) eqn:Ha.
    + now rewrite Ascii.eqb_refl, orb_true_r.
    + now rewrite orb_false_r.
  - exact IH.
Qed.

Lemma replace_eq_nil old new s : Str.replace old new s = "" -> s = "".
Proof.
  now destruct s.
Qed.

End SliceFacts.

(** ** Absolute normalised paths *)

Module NormFacts.

Import StrFacts PathFacts SliceFacts.

Lemma startswith_nil s : Str.startswith "" s = true.
Proof.
  now destruct s.
Qed.

Lemma startswith_cons c p a s :
  Str.startswith (String c p) (String a s)
  = Ascii.eqb c a && Str.startswith p s.
Proof.
  unfold Str.startswith. cbn [String.prefix].
  destruct (ascii_dec c a) as [->|Hne].
  - now rewrite Ascii.eqb_refl.
  - apply Ascii.eqb_neq in Hne. now rewrite Hne.
Qed.

Lemma Forall_last {A} (P : A -> Prop) l d :
  Forall P l -> l <> [] -> P (last l d).
Proof.
  induction 1 as [|x l Hx Hl IH]; [congruence|]. intros _.
  destruct l as [|y l]; [exact Hx|]. apply IH. discriminate.
Qed.

Lemma Forall_removelast {A} (P : A -> Prop) l :
  Forall P l -> Forall P (removelast l).
Proof.
  induction 1 as [|x l Hx Hl IH]; [constructor|].
  destruct l as [|y l]; [constructor|]. now constructor.
Qed.

(** With a leading slash the loop of [normpath] keeps names only. *)
Lemma normpath_loop_names k comps :
  k <> 0%nat ->
  Forall (fun comp => Str.contains "/" comp = false) comps ->
  forall new_comps,
    Forall (fun comp => entry_name comp = true) new_comps ->
    Forall (fun comp => entry_name comp = true)
      (PosixPath.normpath_loop k comps new_comps).
Proof.
  intros Hk Hcomps.
  induction Hcomps as [|comp rest Hcomp _ IH]; intros new_comps Hnew;
    [exact Hnew|].
  cbn [PosixPath.normpath_loop].
  destruct (String.eqb comp "" || String.eqb comp ".") eqn:Hskip;
    [now apply IH|].
  apply orb_false_iff in Hskip as [Hempty Hdot].
  destruct (String.eqb comp "..") eqn:Hdotdot.
  - apply Nat.eqb_neq in Hk. rewrite Hk. cbn [negb andb orb].
    destruct new_comps as [|c new_comps]; [now apply IH|].
    pose proof (Forall_last _ (c :: new_comps) "" Hnew ltac:(discriminate))
      as Hlast.
    destruct (String.eqb_spec (last (c :: new_comps) "") "..") as [E|_].
    + rewrite E in Hlast. discriminate.
    + apply IH. now apply Forall_removelast.
  - cbn [negb orb]. apply IH. apply Forall_app. split; [assumption|].
    constructor; [|constructor].
    unfold entry_name. now rewrite Hempty, Hcomp, Hdot, Hdotdot.
Qed.

(** Names pass through the loop unchanged. *)
Lemma normpath_loop_clean k comps :
  Forall (fun comp => entry_name comp = true) comps ->
  forall new_comps,
    PosixPath.normpath_loop k comps new_comps = new_comps ++ comps.
Proof.
  induction 1 as [|comp rest Hcomp _ IH]; intros new_comps.
  - now rewrite app_nil_r.
  - cbn [PosixPath.normpath_loop].
    apply entry_name_spec in Hcomp as (H1 & _ & H2 & H3).
    apply String.eqb_neq in H1, H2, H3. rewrite H1, H2, H3. cbn [negb orb].
    rewrite IH, <- app_assoc. reflexivity.
Qed.

Lemma normpath_loop_empty k comps new_comps :
  PosixPath.normpath_loop k ("" :: comps) new_comps
  = PosixPath.normpath_loop k comps new_comps.
Proof.
  reflexivity.
Qed.

Lemma abs_path_nonempty k comps : k <> 0%nat -> abs_path k comps <> "".
Proof.
  destruct k; [congruence|]. discriminate.
Qed.

(** What [normpath] returns for an absolute path *)
Lemma normpath_absolute path :
  PosixPath.isabs path = true ->
  exists k comps,
    (k = 1%nat \/ k = 2%nat)
    /\ Forall (fun comp => entry_name comp = true) comps
    /\ PosixPath.normpath path = abs_path k comps.
Proof.
  unfold PosixPath.isabs, PosixPath.normpath. intros Habs. cbv zeta.
  destruct (String.eqb_spec path "") as [->|_]; [discriminate|].
  rewrite Habs.
  set (k := if Str.startswith "//" path && negb (Str.startswith "///" path)
            then 2%nat else 1%nat).
  assert (Hk : k = 1%nat \/ k = 2%nat) by (unfold k; destruct (_ && _); auto).
  exists k, (PosixPath.normpath_loop k (Str.split PosixPath.sep path) []).
  split; [exact Hk|]. split.
  - apply normpath_loop_names; [lia | apply split_pieces | constructor].
  - fold (abs_path k (PosixPath.normpath_loop k (Str.split PosixPath.sep path) [])).
    match goal with |- (if String.eqb ?p "" then _ else _) = _ =>
      destruct (String.eqb_spec p "") as [E|_] end; [|reflexivity].
    apply abs_path_nonempty in E; [contradiction | lia].
Qed.

Lemma isabs_abs_path k comps :
  k <> 0%nat -> PosixPath.isabs (abs_path k comps) = true.
Proof.
  destruct k; [congruence|]. intros _.
  unfold PosixPath.isabs, abs_path. cbn [Str.repeat String.append].
  now rewrite startswith_cons, startswith_nil.
Qed.

Lemma join_head a s l :
  exists rest, Str.join "/" (String a s :: l) = String a rest.
Proof.
  destruct l; cbn; eauto.
Qed.

Lemma name_head n :
  entry_name n = true ->
  exists a s, n = String a s /\ Ascii.eqb a "/" = false.
Proof.
  intros H. apply entry_name_spec in H as (Hne & Hsep & _).
  destruct n as [|a s]; [congruence|]. exists a, s. split; [reflexivity|].
  cbn [Str.contains] in Hsep. now apply orb_false_iff in Hsep.
Qed.

Lemma join_names_end comps :
  comps <> [] ->
  Forall (fun comp => entry_name comp = true) comps ->
  Str.join "/" comps <> "" /\ Str.endswith "/" (Str.join "/" comps) = false.
Proof.
  intros Hne H. induction H as [|x l Hx _ IH]; [congruence|].
  apply entry_name_spec in Hx as (Hx & Hsep & _).
  destruct l as [|y l].
  - cbn. split; [assumption|].
    destruct (Str.endswith "/" x) eqn:E; [|reflexivity].
    apply endswith_contains in E. congruence.
  - destruct IH as [IH1 IH2]; [discriminate|].
    rewrite join_cons. split.
    + intros E. apply append_eq_nil in E as [E _]. contradiction.
    + rewrite <- append_assoc. now rewrite endswith_app.
Qed.

Lemma split_abs_path k comps :
  k = 1%nat \/ k = 2%nat ->
  Forall (fun comp => entry_name comp = true) comps ->
  Str.split "/" (abs_path k comps)
  = List.repeat "" k ++ match comps with [] => [""] | _ => comps end.
Proof.
  intros Hk Hcomps.
  assert (Hsplit : Str.split "/" (Str.join "/" comps)
                   = match comps with [] => [""] | _ => comps end).
  { destruct comps as [|c comps]; [reflexivity|].
    apply split_join; [discriminate|].
    eapply Forall_impl; [|exact Hcomps]. intros n Hn.
    now apply entry_name_spec in Hn. }
  unfold abs_path. destruct Hk as [-> | ->]; cbn; now rewrite Hsplit.
Qed.

(** [normpath] leaves a normalised absolute path alone. *)
Lemma normpath_abs_path k comps :
  k = 1%nat \/ k = 2%nat ->
  Forall (fun comp => entry_name comp = true) comps ->
  PosixPath.normpath (abs_path k comps) = abs_path k comps.
Proof.
  intros Hk Hcomps. unfold PosixPath.normpath. cbv zeta.
  destruct (String.eqb_spec (abs_path k comps) "") as [E|_].
  { apply abs_path_nonempty in E; [contradiction | lia]. }
  assert (Hslashes :
            (if Str.startswith "/" (abs_path k comps) then
               if Str.startswith "//" (abs_path k comps)
                  && negb (Str.startswith "///" (abs_path k comps))
               then 2%nat else 1%nat
             else 0%nat) = k).
  { destruct comps as [|c comps].
    - destruct Hk as [-> | ->]; reflexivity.
    - inversion Hcomps as [|? ? Hc _]; subst.
      destruct (name_head c Hc) as (a & s & -> & Ha).
      destruct (join_head a s comps) as [rest Hrest].
      unfold abs_path. rewrite Hrest. rewrite Ascii.eqb_sym in Ha.
      destruct Hk as [-> | ->]; cbn [Str.repeat String.append];
        rewrite !startswith_cons, ?startswith_nil, ?Ha; reflexivity. }
  rewrite Hslashes.
  change (Str.split PosixPath.sep (abs_path k comps))
    with (Str.split "/" (abs_path k comps)).
  rewrite split_abs_path by assumption.
  assert (Hloop : PosixPath.normpath_loop k
                    (List.repeat "" k
                     ++ match comps with [] => [""] | _ => comps end) []
                  = comps).
  { destruct comps as [|c comps].
    - destruct Hk as [-> | ->]; reflexivity.
    - destruct Hk as [-> | ->]; cbn [List.repeat app];
        rewrite !normpath_loop_empty, normpath_loop_clean by assumption;
        reflexivity. }
  rewrite Hloop.
  change (Str.repeat PosixPath.sep k +++ Str.join "/" comps)
    with (abs_path k comps).
  destruct (String.eqb_spec (abs_path k comps) "") as [E|_]; [|reflexivity].
  apply abs_path_nonempty in E; [contradiction | lia].
Qed.

(** The shape of a root as [main] passes it *)
Lemma normalised_root_shape root_dir :
  normalised_root root_dir = true ->
  exists k comps,
    (k = 1%nat \/ k = 2%nat)
    /\ Forall (fun comp => entry_name comp = true) comps
    /\ root_dir = abs_path k comps.
Proof.
  unfold normalised_root. intros H. apply andb_true_iff in H as [Habs Hnorm].
  apply String.eqb_eq in Hnorm.
  destruct (normpath_absolute root_dir Habs) as (k & comps & Hk & Hcomps & E).
  exists k, comps. repeat split; try assumption. congruence.
Qed.

End NormFacts.

(** ** The relative path of an entry and its [dirname] *)

Module RelFacts.

Import StrFacts PathFacts SliceFacts NormFacts.

Lemma join_abs_path k comps item :
  k = 1%nat \/ k = 2%nat ->
  Forall (fun comp => entry_name comp = true) comps ->
  entry_name item = true ->
  PosixPath.join (abs_path k comps) item = abs_path k (comps ++ [item]).
Proof.
  intros Hk Hcomps Hitem.
  apply entry_name_spec in Hitem as (_ & Hsep & _).
  rewrite join_entry by assumption.
  destruct comps as [|c comps].
  - destruct Hk as [-> | ->]; reflexivity.
  - destruct (join_names_end (c :: comps) ltac:(discriminate) Hcomps)
      as [Hne Hend].
    assert (Habs : abs_path k (c :: comps) <> "")
      by (apply abs_path_nonempty; lia).
    apply String.eqb_neq in Habs. rewrite Habs.
    unfold abs_path. rewrite endswith_app, Hend by assumption. cbn [orb].
    rewrite join_snoc by discriminate. now rewrite append_assoc.
Qed.

(** The path of an entry, as the walk builds it from a normalised root *)
Lemma join_all_abs_path k comps segs :
  k = 1%nat \/ k = 2%nat ->
  Forall (fun comp => entry_name comp = true) comps ->
  Forall (fun seg => entry_name seg = true) segs ->
  PosixPath.join_all (abs_path k comps) segs = abs_path k (comps ++ segs).
Proof.
  intros Hk Hcomps Hsegs. revert comps Hcomps.
  induction Hsegs as [|seg segs Hseg _ IH]; intros comps Hcomps.
  - now rewrite app_nil_r.
  - unfold PosixPath.join_all. cbn [fold_left].
    rewrite join_abs_path by assumption.
    change (fold_left PosixPath.join segs (abs_path k (comps ++ [seg])))
      with (PosixPath.join_all (abs_path k (comps ++ [seg])) segs).
    rewrite IH, <- app_assoc; [reflexivity|].
    apply Forall_app. split; [assumption | now constructor].
Qed.

Lemma join_all_names l segs :
  l <> [] ->
  Forall (fun seg => entry_name seg = true) l ->
  Forall (fun seg => entry_name seg = true) segs ->
  PosixPath.join_all (Str.join "/" l) segs = Str.join "/" (l ++ segs).
Proof.
  intros Hne Hl Hsegs. revert l Hne Hl.
  induction Hsegs as [|seg segs Hseg _ IH]; intros l Hne Hl.
  - now rewrite app_nil_r.
  - unfold PosixPath.join_all. cbn [fold_left].
    destruct (join_names_end l Hne Hl) as [Hj Hend].
    pose proof Hseg as Hseg'.
    apply entry_name_spec in Hseg' as (_ & Hsep & _).
    rewrite join_entry by assumption.
    apply String.eqb_neq in Hj. rewrite Hj, Hend. cbn [orb].
    rewrite <- join_snoc by assumption.
    change (fold_left PosixPath.join segs (Str.join "/" (l ++ [seg])))
      with (PosixPath.join_all (Str.join "/" (l ++ [seg])) segs).
    rewrite IH, <- app_assoc; [reflexivity | |].
    + destruct l; discriminate.
    + apply Forall_app. split; [assumption | now constructor].
Qed.

Lemma commonprefix_app l m : PosixPath.commonprefix l (l ++ m) = l.
Proof.
  induction l as [|x l IH]; [reflexivity|].
  cbn. now rewrite String.eqb_refl, IH.
Qed.

Lemma components_abs_path k comps :
  k = 1%nat \/ k = 2%nat ->
  Forall (fun comp => entry_name comp = true) comps ->
  filter (fun x => negb (String.eqb x "")) (Str.split "/" (abs_path k comps))
  = comps.
Proof.
  intros Hk Hcomps. rewrite split_abs_path by assumption.
  assert (Hkeep : filter (fun x => negb (String.eqb x "")) comps = comps).
  { induction Hcomps as [|c comps Hc _ IH]; [reflexivity|].
    cbn [filter]. apply entry_name_spec in Hc as (Hc & _).
    apply String.eqb_neq in Hc. now rewrite Hc, IH. }
  destruct comps as [|c comps].
  - destruct Hk as [-> | ->]; reflexivity.
  - destruct Hk as [-> | ->]; cbn [List.repeat app filter String.eqb negb];
      exact Hkeep.
Qed.

(** [relpath] of an entry below a normalised root: the names on the way,
    joined with slashes *)
Lemma relpath_entry cwd root_dir segs :
  normalised_root root_dir = true ->
  segs <> [] ->
  Forall (fun seg => entry_name seg = true) segs ->
  PosixPath.relpath cwd (PosixPath.join_all root_dir segs) root_dir
  = Return (Str.join "/" segs).
Proof.
  intros Hroot Hne Hsegs.
  destruct (normalised_root_shape root_dir Hroot)
    as (k & comps & Hk & Hcomps & ->).
  rewrite join_all_abs_path by assumption.
  assert (Hall : Forall (fun c => entry_name c = true) (comps ++ segs))
    by (apply Forall_app; now split).
  unfold PosixPath.relpath, PosixPath.abspath.
  rewrite !isabs_abs_path, !normpath_abs_path by (assumption || lia).
  destruct (String.eqb_spec (abs_path k (comps ++ segs)) "") as [E|_].
  { apply abs_path_nonempty in E; [contradiction | lia]. }
  cbv zeta. change PosixPath.sep with "/"%char.
  rewrite !components_abs_path by assumption.
  rewrite commonprefix_app, Nat.sub_diag, skipn_app, skipn_all, Nat.sub_diag.
  cbn [List.repeat app skipn].
  destruct segs as [|seg segs]; [congruence|].
  inversion Hsegs; subst.
  f_equal. apply (join_all_names [seg] segs); [discriminate | | assumption].
  now constructor.
Qed.

(** [p[:p.rfind('/') + 1]], one character at a time *)
Lemma head_cons a s :
  Str.slice_to (Str.rfind "/" (String a s) + 1) (String a s)
  = if Str.contains "/" s
    then String a (Str.slice_to (Str.rfind "/" s + 1) s)
    else if Ascii.eqb a "/" then "/" else "".
Proof.
  unfold Str.slice_to. cbn [Str.rfind]. rewrite rfind_found.
  destruct (Str.contains "/" s) eqn:Hs.
  - rewrite <- rfind_found in Hs. apply Z.leb_le in Hs.
    replace (Z.to_nat (Str.rfind "/" s + 1 + 1))
      with (S (Z.to_nat (Str.rfind "/" s + 1))) by lia.
    reflexivity.
  - destruct (Ascii.eqb_spec a "/") as [->|_].
    + change (Z.to_nat (0 + 1)) with 1%nat. cbn. now destruct s.
    + change (Z.to_nat (-1 + 1)) with 0%nat. reflexivity.
Qed.

Lemma head_app x t :
  Str.contains "/" t = false ->
  Str.slice_to (Str.rfind "/" (x +++ String "/" t) + 1) (x +++ String "/" t)
  = x +++ "/".
Proof.
  intros Ht. induction x as [|a x IH].
  - cbn [String.append]. rewrite head_cons, Ht. reflexivity.
  - cbn [String.append]. rewrite head_cons, IH.
    rewrite contains_app. cbn [Str.contains].
    rewrite Ascii.eqb_refl. cbn [orb]. now rewrite orb_true_r.
Qed.

Lemma rstrip_app_sep c x : Str.rstrip c (x +++ String c "") = Str.rstrip c x.
Proof.
  induction x as [|a x IH].
  - cbn. now rewrite Ascii.eqb_refl.
  - cbn [String.append Str.rstrip]. now rewrite IH.
Qed.

Lemma rstrip_id c x : Str.endswith c x = false -> Str.rstrip c x = x.
Proof.
  induction x as [|a x IH]; [reflexivity|].
  destruct x as [|b x].
  - cbn. now intros ->.
  - intros H. change (Str.endswith c (String b x) = false) in H.
    cbn [Str.rstrip]. cbn [Str.rstrip] in IH. now rewrite (IH H).
Qed.

Lemma not_all_slashes a s n :
  Ascii.eqb a "/" = false -> String.eqb (String a s) (Str.repeat "/" n) = false.
Proof.
  intros Ha. destruct n; cbn; [reflexivity|]. now rewrite Ha.
Qed.

(** [dirname] of the relative path of an entry: the way to its parent, and
    the empty string for an entry of the root *)
Lemma dirname_join segs item :
  Forall (fun seg => entry_name seg = true) (segs ++ [item]) ->
  PosixPath.dirname (Str.join "/" (segs ++ [item])) = Str.join "/" segs.
Proof.
  intros H. apply Forall_app in H as [Hsegs Hitem].
  inversion Hitem as [|? ? Hname _]; subst.
  apply entry_name_spec in Hname as (_ & Hsep & _).
  unfold PosixPath.dirname. cbv zeta. change PosixPath.sep with "/"%char.
  destruct segs as [|seg segs].
  - cbn [app Str.join String.concat].
    rewrite (rfind_without "/" item Hsep).
    unfold Str.slice_to. cbn. now destruct item.
  - rewrite join_snoc by discriminate.
    change ("/" +++ item) with (String "/" item).
    rewrite head_app by assumption.
    destruct (join_names_end (seg :: segs) ltac:(discriminate) Hsegs)
      as [Hne Hend].
    inversion Hsegs as [|? ? Hseg _]; subst.
    destruct (name_head seg Hseg) as (a & s & -> & Ha).
    destruct (join_head a s segs) as [rest Hrest].
    rewrite Hrest in *. cbn [String.append].
    rewrite not_all_slashes by assumption. cbn [String.eqb negb andb].
    change (String a (rest +++ "/")) with (String a rest +++ "/").
    rewrite rstrip_app_sep. now apply rstrip_id.
Qed.

Lemma join_names_not_dot segs :
  Forall (fun seg => entry_name seg = true) segs -> Str.join "/" segs <> ".".
Proof.
  intros H. destruct H as [|x l Hx Hl]; [discriminate|].
  pose proof Hx as Hx'. apply entry_name_spec in Hx' as (Hne & _ & Hdot & _).
  destruct l as [|y l]; [exact Hdot|].
  rewrite join_cons. destruct x as [|a x]; [congruence|].
  cbn [String.append]. intros E. injection E as _ E.
  apply append_eq_nil in E as [_ E]. discriminate.
Qed.

End RelFacts.

(** * Facts about the walker *)

(** ** Generic facts about the loop *)

Section LoopFacts.

Variable cwd : string.
Variable recurse :
  string -> string -> node -> list diag -> outcome (list FileRecord) * list diag.
Variables dir_path base root_dir : string.

Lemma frame_frame res1 err1 res2 err2 r :
  frame res1 err1 (frame res2 err2 r) = frame (res1 ++ res2) (err1 ++ err2) r.
Proof.
  destruct r as [[l|e] err]; unfold frame; simpl; now rewrite <- ?app_assoc.
Qed.

(** The loop adds to [results] and to [stderr] and reads neither, as soon
    as the recursive call treats [stderr] so. *)
Lemma visit_frame item fs results stderr :
  (forall ip rp err, recurse ip rp fs err = frame [] err (recurse ip rp fs [])) ->
  visit cwd recurse dir_path base root_dir item fs results stderr
  = frame results stderr (visit cwd recurse dir_path base root_dir item fs [] []).
Proof.
  intros Hrec. unfold visit.
  destruct (isdir fs).
  - destruct (should_skip_directory item base).
    + unfold frame; simpl. now rewrite !app_nil_r.
    + rewrite (Hrec _ _ stderr).
      destruct (recurse _ _ fs []) as [[sub|e] err]; unfold frame; simpl;
        now rewrite ?app_nil_r.
  - destruct (should_include_file cwd _ root_dir) as [[|]|e];
      unfold frame; simpl; now rewrite ?app_nil_r.
Qed.

Lemma for_items_frame items :
  Forall (fun entry => forall ip rp err,
              recurse ip rp (snd entry) err
              = frame [] err (recurse ip rp (snd entry) [])) items ->
  forall results stderr,
    for_items cwd recurse dir_path base root_dir items results stderr
    = frame results stderr
        (for_items cwd recurse dir_path base root_dir items [] []).
Proof.
  induction 1 as [|[item fs] rest Hfs _ IH]; intros results stderr.
  - unfold frame; simpl. now rewrite !app_nil_r.
  - cbn [for_items].
    rewrite (visit_frame item fs results stderr Hfs).
    destruct (visit cwd recurse dir_path base root_dir item fs [] [])
      as [[added|[[| |errno]|]] err];
      unfold frame at 1; cbn [fst snd app].
    + rewrite (IH (results ++ added)), (IH added). now rewrite frame_frame.
    + rewrite (IH results (_ ++ [_])), (IH [] (_ ++ [_])), frame_frame.
      now rewrite app_nil_r, <- app_assoc.
    + rewrite (IH results (_ ++ [_])), (IH [] (_ ++ [_])), frame_frame.
      now rewrite app_nil_r, <- app_assoc.
    + rewrite (IH results (_ ++ [_])), (IH [] (_ ++ [_])), frame_frame.
      now rewrite app_nil_r, <- app_assoc.
    + unfold frame; simpl. reflexivity.
Qed.


End LoopFacts.

(** ** The walker never lets an exception out of its loop *)

Section WalkFacts.

Variable cwd : string.

Lemma walk_directory_Dir dir_path base root_dir items stderr :
  walk_directory cwd dir_path base root_dir (Dir items) stderr
  = for_items cwd
      (fun item_path rel_path sub =>
         walk_directory cwd item_path rel_path
           (Some (resolved dir_path root_dir)) sub)
      dir_path base (resolved dir_path root_dir) items [] stderr.
Proof.
  destruct root_dir; reflexivity.
Qed.

Lemma join_nonempty path b :
  path <> "" \/ b <> "" -> PosixPath.join path b <> "".
Proof.
  unfold PosixPath.join, Str.startswith. intros H.
  destruct b as [|c b].
  - simpl. destruct H as [H|H]; [|congruence].
    destruct path; [congruence|].
    destruct (_ || _); simpl; discriminate.
  - destruct (String.prefix "/" (String c b)); [discriminate|].
    destruct (_ || _); destruct path; simpl; discriminate.
Qed.

Lemma should_include_file_returns file_path root_dir :
  file_path <> "" ->
  exists b, should_include_file cwd file_path root_dir = Return b.
Proof.
  intros H. unfold should_include_file, PosixPath.relpath.
  apply String.eqb_neq in H. rewrite H.
  destruct (_ ++ _); destruct (String.eqb _ "."); eauto;
    destruct (Str.mem _ _); eauto.
Qed.

(** [stderr] is only ever appended to. *)
Lemma walk_directory_frame fs :
  forall dir_path base root_dir stderr,
    walk_directory cwd dir_path base root_dir fs stderr
    = frame [] stderr (walk_directory cwd dir_path base root_dir fs []).
Proof.
  induction fs as [|items IH|e] using node_ind;
    intros dir_path base root_dir stderr.
  - unfold frame; simpl. now rewrite app_nil_r.
  - rewrite !walk_directory_Dir.
    apply for_items_frame.
    eapply Forall_impl; [|exact IH]. intros entry H ip rp err. apply H.
  - destruct e; unfold frame; simpl; now rewrite ?app_nil_r.
Qed.

Lemma for_items_returns recurse dir_path base root_dir items :
  (forall item, In item (map fst items) ->
                PosixPath.join dir_path item <> "") ->
  Forall (fun entry => never_ValueError recurse (snd entry)) items ->
  forall results stderr,
  exists l e,
    for_items cwd recurse dir_path base root_dir items results stderr
    = (Return l, e).
Proof.
  intros Hpath Hrec. induction Hrec as [|[item fs] rest Hfs _ IH];
    intros results stderr.
  - simpl. eauto.
  - cbn [for_items].
    assert (Hitem : PosixPath.join dir_path item <> "")
      by (apply Hpath; now left).
    assert (IH' := IH (fun i Hi => Hpath i (or_intror Hi))).
    unfold visit. destruct (isdir fs).
    + destruct (should_skip_directory item base); [apply IH'|].
      specialize (Hfs (PosixPath.join dir_path item)
                      (Str.replace "\" "/" (PosixPath.join base item))
                      stderr Hitem).
      cbn [snd] in Hfs.
      destruct (recurse _ _ fs stderr) as [[sub|[[| |errno]|]] err];
        try apply IH'.
      now contradiction Hfs.
    + destruct (should_include_file_returns _ root_dir Hitem) as [b ->].
      destruct b; apply IH'.
Qed.

Lemma walk_directory_never_ValueError fs :
  forall root_dir,
    never_ValueError
      (fun ip rp sub => walk_directory cwd ip rp root_dir sub) fs.
Proof.
  induction fs as [|items IH|e] using node_ind;
    intros root_dir ip rp err Hip.
  - discriminate.
  - rewrite walk_directory_Dir.
    destruct (for_items_returns
                (fun item_path rel_path sub =>
                   walk_directory cwd item_path rel_path
                     (Some (resolved ip root_dir)) sub)
                ip rp (resolved ip root_dir) items) with (results := @nil FileRecord)
                (stderr := err) as (l & e & ->).
    + intros item _. apply join_nonempty. now left.
    + eapply Forall_impl; [|exact IH]. intros entry H. apply H.
    + discriminate.
  - destruct e; discriminate.
Qed.


End WalkFacts.

(** ** The output of a listing, entry by entry *)

Section EntryWise.

Variable cwd : string.

Lemma for_items_records dir_path base root_dir items :
  Forall (fun entry => PosixPath.join dir_path (fst entry) <> "") items ->
  forall results stderr,
  exists e,
    for_items cwd
      (fun item_path rel_path sub =>
         walk_directory cwd item_path rel_path (Some root_dir) sub)
      dir_path base root_dir items results stderr
    = (Return (results
               ++ flat_map (entry_records cwd dir_path base root_dir) items),
       e).
Proof.
  induction 1 as [|[item fs] rest Hitem _ IH]; intros results stderr.
  - simpl. rewrite app_nil_r. eauto.
  - cbn [for_items flat_map]. unfold visit, entry_records.
    cbn [fst] in Hitem.
    destruct (isdir fs).
    + destruct (should_skip_directory item base); [apply IH|].
      rewrite walk_directory_frame.
      pose proof (walk_directory_never_ValueError cwd fs (Some root_dir)
                    (PosixPath.join dir_path item)
                    (Str.replace "\" "/" (PosixPath.join base item)) []
                    Hitem) as Hnv.
      cbv beta in Hnv. unfold records_of.
      destruct (walk_directory cwd _ _ (Some root_dir) fs [])
        as [[sub|[[| |errno]|]] err]; unfold frame; cbn [fst snd app];
        try (now contradiction Hnv).
      * destruct (IH (results ++ sub) (stderr ++ err)) as [e ->].
        rewrite <- app_assoc. eauto.
      * apply IH.
      * apply IH.
      * apply IH.
    + destruct (should_include_file_returns cwd _ root_dir Hitem) as [b ->].
      destruct b; [|apply IH].
      destruct (IH (results ++ [mkFileRecord (Str.replace "\" "/" base) item])
                   stderr) as [e ->].
      rewrite <- app_assoc. eauto.
Qed.

Lemma walk_directory_records_paths dir_path base root_dir items stderr :
  Forall (fun entry => PosixPath.join dir_path (fst entry) <> "") items ->
  records_of (walk_directory cwd dir_path base root_dir (Dir items) stderr)
  = flat_map
      (entry_records cwd dir_path base (resolved dir_path root_dir)) items.
Proof.
  intros Hp. rewrite walk_directory_Dir.
  destruct (for_items_records dir_path base (resolved dir_path root_dir)
              items Hp [] stderr) as [e ->].
  reflexivity.
Qed.

Lemma walk_directory_records dir_path base root_dir items stderr :
  dir_path <> "" ->
  records_of (walk_directory cwd dir_path base root_dir (Dir items) stderr)
  = flat_map
      (entry_records cwd dir_path base (resolved dir_path root_dir)) items.
Proof.
  intros Hp. apply walk_directory_records_paths.
  apply Forall_forall. intros entry _. apply join_nonempty. now left.
Qed.

End EntryWise.

(** * The claims *)

(** ** The walk as a whole *)

Section Claims.

Variable cwd : string.

Lemma records_of_stderr dir_path base root_dir fs stderr :
  records_of (walk_directory cwd dir_path base root_dir fs stderr)
  = records_of (walk_directory cwd dir_path base root_dir fs []).
Proof.
  rewrite walk_directory_frame. unfold records_of, frame.
  destruct (walk_directory cwd dir_path base root_dir fs []) as [[l|e] err];
    reflexivity.
Qed.

(** C9: the answer of [should_skip_directory] depends on [dir_name] only;
    two calls with the same name and any two [base_path]s agree, both
    answering whether the name is ["images"] in some case or [".git"]. *)
Theorem should_skip_directory_ignores_base_path dir_name base_path1 base_path2 :
  should_skip_directory dir_name base_path1
  = should_skip_directory dir_name base_path2
  /\ should_skip_directory dir_name base_path1
     = String.eqb (Str.lower dir_name) "images" || String.eqb dir_name ".git".
Proof.
  split; [reflexivity|].
  unfold should_skip_directory.
  destruct (String.eqb (Str.lower dir_name) "images"); [reflexivity|].
  now destruct (String.eqb dir_name ".git").
Qed.

(** C10: a call with [root_dir] left out ([None]) returns what the call
    with [root_dir = dir_path] returns, records and diagnostics alike. *)
Theorem walk_directory_default_root dir_path base fs stderr :
  walk_directory cwd dir_path base None fs stderr
  = walk_directory cwd dir_path base (Some dir_path) fs stderr.
Proof.
  destruct fs as [|items|e]; reflexivity.
Qed.

(** C7: the output of a directory is the concatenation, in listing order,
    of what each entry adds; where an entry is a subdirectory that is not
    skipped, the records of its whole subtree stand together at that
    place, after those of the entries before it and before those of the
    entries after it. *)
Theorem walk_directory_depth_first_order dir_path base root_dir items stderr :
  dir_path <> "" ->
  records_of (walk_directory cwd dir_path base root_dir (Dir items) stderr)
  = flat_map (entry_records cwd dir_path base (resolved dir_path root_dir))
      items
  /\ forall before item sub after,
      items = before ++ (item, sub) :: after ->
      isdir sub = true ->
      should_skip_directory item base = false ->
      records_of (walk_directory cwd dir_path base root_dir (Dir items) stderr)
      = records_of
          (walk_directory cwd dir_path base root_dir (Dir before) stderr)
        ++ records_of
             (walk_directory cwd (PosixPath.join dir_path item)
                (Str.replace "\" "/" (PosixPath.join base item))
                (Some (resolved dir_path root_dir)) sub stderr)
        ++ records_of
             (walk_directory cwd dir_path base root_dir (Dir after) stderr).
Proof.
  intros Hp. split; [now apply walk_directory_records|].
  intros before item sub after -> Hdir Hskip.
  rewrite !walk_directory_records by assumption.
  rewrite flat_map_app. cbn [flat_map]. f_equal. f_equal.
  unfold entry_records. rewrite Hdir, Hskip.
  symmetry. apply records_of_stderr.
Qed.

End Claims.

Lemma walk_directory_depth_first_order_witness :
  "/r" <> ""
  /\ records_of
       (walk_directory "/" "/r" "" None
          (Dir [("a", Dir [("x", NonDir); ("d", Dir [("y", NonDir)])]);
                ("b", Dir [("z", NonDir)])]) [])
     = [mkFileRecord "a" "x"; mkFileRecord "a/d" "y"; mkFileRecord "b" "z"].
Proof.
  split; [discriminate|].
  etransitivity;
    [exact (proj1 (walk_directory_depth_first_order "/" "/r" "" None _ []
                     ltac:(discriminate)))|].
  reflexivity.
Defined.

(** ** The process and the run of [main] *)

Lemma process_abspath E path :
  Process.abspath E path
  = if cwd_missing E path then Raise (OSError FileNotFoundError)
    else Return (PosixPath.abspath (Process.working_directory E) path).
Proof.
  unfold Process.abspath, cwd_missing, PosixPath.abspath,
    Process.working_directory.
  destruct (PosixPath.isabs path); [reflexivity|].
  destruct (Process.getcwd E); reflexivity.
Qed.

Lemma encodable_all E files :
  (forall s, Process.stdout_encodes E s = true) ->
  Process.encodable E files = true.
Proof.
  intros H. unfold Process.encodable. apply forallb_forall.
  intros rec _. now rewrite !H.
Qed.


(** [main] is the run of the process in which the working directory is
    there, argument and root are one object, the recursion limit is not
    reached and [sys.stdout] encodes every text. *)
Lemma main_is_process_main cwd argv target :
  main cwd argv target
  = Process.main
      (Process.mkEnvironment (Some cwd) target
         match target with
         | Some fs => fs
         | None => DirFail FileNotFoundError
         end
         None (fun _ => true))
      argv.
Proof.
  unfold main, Process.main. cbn [Process.at_argument].
  destruct target as [fs|]; [|reflexivity].
  destruct (isdir fs); cbn [negb]; [|reflexivity].
  rewrite process_abspath. unfold cwd_missing. cbn [Process.getcwd].
  rewrite andb_false_r.
  cbn [Process.working_directory Process.getcwd Process.recursion_error
       Process.at_root].
  destruct (walk_directory cwd _ _ _ fs []) as [[l|e] err]; [|reflexivity].
  now rewrite encodable_all.
Qed.

(** ** Failures of [os.listdir] and the exit status *)

Section ListingFacts.

Variable cwd : string.

Lemma normpath_nonempty path : PosixPath.normpath path <> "".
Proof.
  unfold PosixPath.normpath. cbv zeta.
  destruct (String.eqb path ""); [discriminate|].
  match goal with |- (if String.eqb ?p "" then _ else _) <> _ =>
    destruct (String.eqb_spec p "") end; [discriminate | assumption].
Qed.

Lemma abspath_nonempty path : PosixPath.abspath cwd path <> "".
Proof.
  apply normpath_nonempty.
Qed.




End ListingFacts.

Section Failures.

Variable cwd : string.


End Failures.


(** Scenario 6 of the specification, run through [main]. *)
Example scenario_unreadable_subdirectory :
  main "/home/u" ["generateFileTree.py"; "/r"]
    (Some (Dir [("locked", DirFail PermissionError);
                ("sub", Dir [("b.txt", NonDir)])]))
  = mkRun (Some [mkFileRecord "sub" "b.txt"])
      [WarnDirNoPermission "/r/locked"] 0.
Proof.
  reflexivity.
Qed.


Section ExitStatus.



End ExitStatus.


(** Scenario 6 of the specification, run as a process: the warning of the
    subtree does not change the status. *)
Example scenario_unreadable_subdirectory_process :
  let tree := Dir [("locked", DirFail PermissionError);
                   ("sub", Dir [("b.txt", NonDir)])] in
  Process.main
    (Process.mkEnvironment (Some "/home/u") (Some tree) tree None ascii_only)
    ["generateFileTree.py"; "/r"]
  = mkRun (Some [mkFileRecord "sub" "b.txt"])
      [WarnDirNoPermission "/r/locked"] 0.
Proof.
  reflexivity.
Qed.

(** ** Two scans of one tree *)

Section Idempotence.

Variable cwd : string.

Lemma same_tree_isdir fs1 fs2 : same_tree fs1 fs2 -> isdir fs1 = isdir fs2.
Proof.
  now destruct 1.
Qed.

Lemma same_tree_refl fs : same_tree fs fs.
Proof.
  induction fs as [|items IH|e] using node_ind; constructor.
  induction IH as [|[item fs] rest Hfs _ IHrest]; now constructor.
Qed.

Lemma same_tree_records fs1 fs2 :
  same_tree fs1 fs2 ->
  forall dir_path base root_dir stderr,
    dir_path <> "" ->
    Permutation
      (records_of (walk_directory cwd dir_path base root_dir fs1 stderr))
      (records_of (walk_directory cwd dir_path base root_dir fs2 stderr)).
Proof.
  revert fs1 fs2.
  apply (same_tree_mut
           (fun fs1 fs2 =>
              forall dir_path base root_dir stderr,
                dir_path <> "" ->
                Permutation
                  (records_of (walk_directory cwd dir_path base root_dir fs1 stderr))
                  (records_of (walk_directory cwd dir_path base root_dir fs2 stderr)))
           (fun items1 items2 =>
              forall dir_path base root_dir,
                dir_path <> "" ->
                Permutation
                  (flat_map (entry_records cwd dir_path base root_dir) items1)
                  (flat_map (entry_records cwd dir_path base root_dir) items2))).
  - reflexivity.
  - reflexivity.
  - intros items1 items2 _ IH dir_path base root_dir stderr Hp.
    rewrite !walk_directory_records by assumption. now apply IH.
  - reflexivity.
  - intros item fs1 fs2 rest1 rest2 Hfs IHfs _ IHrest dir_path base root_dir Hp.
    cbn [flat_map]. apply Permutation_app; [|now apply IHrest].
    unfold entry_records. rewrite (same_tree_isdir _ _ Hfs).
    destruct (isdir fs2) eqn:Hdir.
    + destruct (should_skip_directory item base); [reflexivity|].
      apply IHfs. apply join_nonempty. now left.
    + reflexivity.
  - intros entry1 entry2 rest1 rest2 _ IHrest dir_path base root_dir Hp.
    cbn [flat_map]. rewrite !app_assoc.
    apply Permutation_app; [apply Permutation_app_comm | now apply IHrest].
  - intros items1 items2 items3 _ IH12 _ IH23 dir_path base root_dir Hp.
    eapply perm_trans; [now apply IH12 | now apply IH23].
Qed.

(** C8: two scans of a tree whose directories list the same entries (in
    whatever order) yield the same records, each as often in one output as
    in the other; in particular the two outputs are equal as sets of
    [(folder, name)] pairs.  An unchanged tree is such a pair of states
    ([same_tree_refl]). *)
Theorem walk_directory_same_set fs1 fs2 dir_path base root_dir stderr1 stderr2 :
  same_tree fs1 fs2 ->
  dir_path <> "" ->
  let out1 := records_of (walk_directory cwd dir_path base root_dir fs1 stderr1) in
  let out2 := records_of (walk_directory cwd dir_path base root_dir fs2 stderr2) in
  Permutation out1 out2
  /\ forall folder name,
      In (mkFileRecord folder name) out1 <-> In (mkFileRecord folder name) out2.
Proof.
  intros Hsame Hp out1 out2.
  assert (Hperm : Permutation out1 out2).
  { unfold out1, out2.
    rewrite (records_of_stderr cwd _ _ _ fs1), (records_of_stderr cwd _ _ _ fs2).
    now apply same_tree_records. }
  split; [exact Hperm|].
  intros folder name. split; apply Permutation_in;
    [exact Hperm | now apply Permutation_sym].
Qed.

End Idempotence.

Lemma walk_directory_same_set_witness :
  let fs1 := Dir [("a", Dir [("x", NonDir); ("y", NonDir)]); ("b", Dir [("z", NonDir)])] in
  let fs2 := Dir [("b", Dir [("z", NonDir)]); ("a", Dir [("y", NonDir); ("x", NonDir)])] in
  same_tree fs1 fs2
  /\ "/r" <> ""
  /\ forall folder name,
      In (mkFileRecord folder name)
        (records_of (walk_directory "/home/u" "/r" "" None fs1 []))
      <-> In (mkFileRecord folder name)
            (records_of (walk_directory "/home/u" "/r" "" None fs2 [])).
Proof.
  intros fs1 fs2.
  assert (Hsame : same_tree fs1 fs2).
  { constructor.
    apply same_trans with
      (items2 := [("b", Dir [("z", NonDir)]); ("a", Dir [("x", NonDir); ("y", NonDir)])]).
    - apply same_swap. constructor.
    - apply same_entry; [apply same_tree_refl|].
      apply same_entry; [|constructor].
      constructor. apply same_swap. constructor. }
  split; [exact Hsame|]. split; [discriminate|].
  exact (proj2 (walk_directory_same_set "/home/u" fs1 fs2 "/r" "" None [] []
                  Hsame ltac:(discriminate))).
Defined.

(** ** Skipped directories *)

Section Skipping.

Variable cwd : string.

Lemma prune_isdir fs : isdir (prune fs) = isdir fs.
Proof.
  now destruct fs.
Qed.

Lemma for_items_prune recurse1 recurse2 dir_path base root_dir items :
  Forall (fun entry => forall ip rp err,
              recurse1 ip rp (prune (snd entry)) err
              = recurse2 ip rp (snd entry) err) items ->
  forall results stderr,
    for_items cwd recurse1 dir_path base root_dir
      (flat_map
         (fun entry =>
            if isdir (snd entry) && should_skip_directory (fst entry) ""
            then []
            else [(fst entry, prune (snd entry))])
         items) results stderr
    = for_items cwd recurse2 dir_path base root_dir items results stderr.
Proof.
  induction 1 as [|[item fs] rest Hfs _ IH]; intros results stderr.
  - reflexivity.
  - cbn [flat_map for_items fst snd]. unfold visit.
    destruct (isdir fs) eqn:Hdir; cbn [andb].
    + change (should_skip_directory item "")
        with (should_skip_directory item base).
      destruct (should_skip_directory item base) eqn:Hskip.
      * apply IH.
      * cbn [app for_items]. unfold visit.
        rewrite prune_isdir, Hdir, Hskip. cbn [snd] in Hfs. rewrite Hfs.
        destruct (recurse2 _ _ fs stderr) as [[sub|[[| |errno]|]] err];
          try apply IH.
        reflexivity.
    + cbn [app for_items]. unfold visit. rewrite prune_isdir, Hdir.
      destruct (should_include_file cwd _ root_dir) as [[|]|[[| |errno]|]];
        try apply IH.
      reflexivity.
Qed.

(** The walk does not tell a tree from the same tree without its skipped
    directories: nothing below them is listed, nothing of them is printed
    or reported. *)
Lemma walk_directory_prune fs :
  forall dir_path base root_dir stderr,
    walk_directory cwd dir_path base root_dir (prune fs) stderr
    = walk_directory cwd dir_path base root_dir fs stderr.
Proof.
  induction fs as [|items IH|e] using node_ind;
    intros dir_path base root_dir stderr.
  - reflexivity.
  - cbn [prune]. rewrite !walk_directory_Dir.
    apply for_items_prune.
    eapply Forall_impl; [|exact IH]. intros entry H ip rp err. apply H.
  - reflexivity.
Qed.

End Skipping.

(** ** The segments of [folder] *)

Section FolderSegments.

Import StrFacts PathFacts.

Variable cwd : string.

Lemma listable_paths dir_path items :
  listable (Dir items) = true ->
  Forall (fun entry => PosixPath.join dir_path (fst entry) <> "") items.
Proof.
  intros H. apply all_entries_Dir in H.
  eapply Forall_impl; [|exact H]. intros entry [Hname _].
  apply join_nonempty. right. now apply entry_name_spec in Hname.
Qed.

(** The relative base one level down, for a directory name without
    backslash under a base that does not end in a slash *)
Lemma rel_path_below base item :
  entry_name item = true ->
  Str.contains "\" item = false ->
  Str.contains "\" base = false ->
  Str.endswith "/" base = false ->
  let rel_path := Str.replace "\" "/" (PosixPath.join base item) in
  Str.contains "\" rel_path = false
  /\ Str.endswith "/" rel_path = false
  /\ Str.split "/" rel_path
     = if String.eqb base "" then [item] else Str.split "/" base ++ [item].
Proof.
  intros Hname Hbs Hbase Hend rel_path.
  apply entry_name_spec in Hname as (Hne & Hsep & _ & _).
  assert (Hitem_end : Str.endswith "/" item = false).
  { destruct (Str.endswith "/" item) eqn:E; [|reflexivity].
    apply endswith_contains in E. congruence. }
  split; [now apply replace_clears|].
  unfold rel_path. rewrite join_entry by assumption. rewrite Hend, orb_false_r.
  destruct (String.eqb_spec base "") as [->|Hb].
  - cbn [String.append]. rewrite replace_without by assumption.
    split; [assumption | now apply split_without].
  - rewrite replace_without
      by (rewrite !contains_app, Hbase, Hbs; reflexivity).
    split.
    + rewrite <- append_assoc. now rewrite endswith_app.
    + cbn [String.append]. rewrite split_app_sep.
      now rewrite (split_without "/" item Hsep).
Qed.

Lemma folder_segments fs :
  forall dir_path base root_dir stderr,
    listable fs = true ->
    no_backslash_dirs fs = true ->
    Str.contains "\" base = false ->
    Str.endswith "/" base = false ->
    Forall (fun seg => should_skip_directory seg "" = false)
      (Str.split "/" base) ->
    Forall (fun rec =>
              Forall (fun seg => should_skip_directory seg "" = false)
                (Str.split "/" (folder rec)))
      (records_of (walk_directory cwd dir_path base root_dir fs stderr)).
Proof.
  induction fs as [|items IH|e] using node_ind;
    intros dir_path base root_dir stderr Hnames Hdirs Hbs Hend Hbase.
  - constructor.
  - rewrite walk_directory_records_paths by now apply listable_paths.
    apply Forall_flat_map, Forall_forall. intros [item sub] Hin.
    apply all_entries_Dir in Hnames, Hdirs.
    rewrite Forall_forall in IH, Hnames, Hdirs.
    specialize (IH _ Hin). specialize (Hnames _ Hin) as [Hname Hsub].
    specialize (Hdirs _ Hin) as [Hdir Hsubdirs]. cbn [fst snd] in *.
    unfold entry_records.
    destruct (isdir sub) eqn:Hisdir.
    + destruct (should_skip_directory item base) eqn:Hskip; [constructor|].
      cbn [negb orb] in Hdir. apply negb_true_iff in Hdir.
      destruct (rel_path_below base item Hname Hdir Hbs Hend)
        as (Hbs' & Hend' & Hsplit).
      apply IH; try assumption.
      rewrite Hsplit. destruct (String.eqb base "").
      * constructor; [exact Hskip | constructor].
      * apply Forall_app. split; [assumption|].
        constructor; [exact Hskip | constructor].
    + destruct (should_include_file cwd _ _) as [[|]|err]; try constructor;
        [|constructor].
      cbn [folder]. now rewrite replace_without.
  - destruct e; constructor.
Qed.

(** C2, as the code has it: the walk yields the same records and
    diagnostics for a tree and for the tree without its directories named
    ["images"] (in any case) or [".git"], at every depth, so that nothing at
    or below such a directory contributes; and where no directory has a
    backslash in its name, no segment of an emitted [folder] is such a
    name. *)
Theorem skipped_directories_contribute_nothing fs dir_path root_dir stderr :
  (forall base,
     walk_directory cwd dir_path base root_dir (prune fs) stderr
     = walk_directory cwd dir_path base root_dir fs stderr)
  /\ (listable fs = true ->
      no_backslash_dirs fs = true ->
      forall rec seg,
        In rec (records_of (walk_directory cwd dir_path "" root_dir fs stderr)) ->
        In seg (Str.split "/" (folder rec)) ->
        should_skip_directory seg "" = false).
Proof.
  split.
  - intros base. apply walk_directory_prune.
  - intros Hnames Hdirs rec seg Hrec Hseg.
    assert (Hroot : Forall (fun s => should_skip_directory s "" = false)
                      (Str.split "/" "")) by (repeat constructor).
    pose proof (folder_segments fs dir_path "" root_dir stderr Hnames Hdirs
                  eq_refl eq_refl Hroot) as H.
    rewrite Forall_forall in H. specialize (H rec Hrec).
    rewrite Forall_forall in H. now apply H.
Qed.

End FolderSegments.

Lemma skipped_directories_contribute_nothing_witness :
  let fs :=
    Dir [("images", Dir [("c.txt", NonDir)]);
         ("sub", Dir [("Images", Dir [("d.txt", NonDir)]); ("b.txt", NonDir)]);
         (".git", Dir [("config", NonDir)])] in
  listable fs = true
  /\ no_backslash_dirs fs = true
  /\ walk_directory "/home/u" "/r" "" None (prune fs) []
     = walk_directory "/home/u" "/r" "" None fs []
  /\ (forall rec seg,
        In rec (records_of (walk_directory "/home/u" "/r" "" None fs [])) ->
        In seg (Str.split "/" (folder rec)) ->
        should_skip_directory seg "" = false)
  /\ walk_directory "/home/u" "/r" "" None fs []
     = (Return [mkFileRecord "sub" "b.txt"], []).
Proof.
  intros fs.
  pose proof (skipped_directories_contribute_nothing "/home/u" fs "/r" None [])
    as [Hprune Hsegs].
  split; [reflexivity|]. split; [reflexivity|]. split; [apply Hprune|].
  split; [exact (Hsegs eq_refl eq_refl) | reflexivity].
Defined.

(** A directory named [images\foo] (one name, with a backslash) is not
    skipped, and the [folder] of what it holds has the segment ["images"]. *)
Lemma skipped_directories_counterexample :
  let fs := Dir [("images\foo", Dir [("f.txt", NonDir)])] in
  listable fs = true
  /\ main "/home/u" ["generateFileTree.py"; "/r"] (Some fs)
     = mkRun (Some [mkFileRecord "images/foo" "f.txt"]) [] 0
  /\ Str.split "/" "images/foo" = ["images"; "foo"]
  /\ should_skip_directory "images" "" = true.
Proof.
  repeat split.
Qed.

(** ** The file filter *)

Section Inclusion.

Import StrFacts PathFacts SliceFacts NormFacts RelFacts.

Variable cwd : string.

Lemma mem_In x l : Str.mem x l = true <-> In x l.
Proof.
  unfold Str.mem. rewrite existsb_exists. split.
  - intros (y & Hin & E). apply String.eqb_eq in E. now subst.
  - intros Hin. exists x. split; [assumption | apply String.eqb_refl].
Qed.

(** What [should_include_file] answers for an entry below a normalised
    root: whether none of the names from the root down to the entry is
    ["images"] *)
Lemma should_include_file_entry root_dir segs item :
  normalised_root root_dir = true ->
  Forall (fun seg => entry_name seg = true) (segs ++ [item]) ->
  should_include_file cwd (file_path root_dir segs item) root_dir
  = Return (negb (Str.mem "images" (segs ++ [item]))).
Proof.
  intros Hroot Hnames. unfold should_include_file, file_path.
  rewrite relpath_entry; [|assumption | now destruct segs | assumption].
  rewrite dirname_join by assumption.
  pose proof Hnames as Hsegs. apply Forall_app in Hsegs as [Hsegs _].
  pose proof (join_names_not_dot segs Hsegs) as Hdot.
  apply String.eqb_neq in Hdot. rewrite Hdot.
  change PosixPath.sep with "/"%char.
  rewrite split_join.
  - now destruct (Str.mem "images" (segs ++ [item])).
  - now destruct segs.
  - eapply Forall_impl; [|exact Hnames]. intros n Hn.
    now apply entry_name_spec in Hn.
Qed.

(** C3: for an entry reached from the root through the directories [segs],
    the path relative to the root is the names joined with slashes, and
    [should_include_file] refuses the entry whenever one of these names,
    its own included, is exactly ["images"]; an entry below a subdirectory
    with no such name on its way is admitted. *)
Theorem images_segment_excludes root_dir segs item :
  normalised_root root_dir = true ->
  Forall (fun seg => entry_name seg = true) (segs ++ [item]) ->
  PosixPath.relpath cwd (file_path root_dir segs item) root_dir
  = Return (Str.join "/" (segs ++ [item]))
  /\ Str.split PosixPath.sep (Str.join "/" (segs ++ [item])) = segs ++ [item]
  /\ (In "images" (segs ++ [item]) ->
      should_include_file cwd (file_path root_dir segs item) root_dir
      = Return false)
  /\ (~ In "images" (segs ++ [item]) ->
      segs <> [] ->
      should_include_file cwd (file_path root_dir segs item) root_dir
      = Return true).
Proof.
  intros Hroot Hnames. split; [|split; [|split]].
  - apply relpath_entry; [assumption | now destruct segs | assumption].
  - apply split_join; [now destruct segs|].
    eapply Forall_impl; [|exact Hnames]. intros n Hn.
    now apply entry_name_spec in Hn.
  - intros Hin. rewrite should_include_file_entry by assumption.
    apply mem_In in Hin. now rewrite Hin.
  - intros Hnot _. rewrite should_include_file_entry by assumption.
    destruct (Str.mem "images" (segs ++ [item])) eqn:E; [|reflexivity].
    apply mem_In in E. contradiction.
Qed.

End Inclusion.

Lemma images_segment_excludes_witness :
  normalised_root "/r" = true
  /\ Forall (fun seg => entry_name seg = true) (["sub"; "images"] ++ ["d.txt"])
  /\ PosixPath.relpath "/home/u" "/r/sub/images/d.txt" "/r"
     = Return "sub/images/d.txt"
  /\ should_include_file "/home/u" "/r/sub/images/d.txt" "/r" = Return false.
Proof.
  assert (Hnames : Forall (fun seg => entry_name seg = true)
                     (["sub"; "images"] ++ ["d.txt"]))
    by (repeat constructor).
  pose proof (images_segment_excludes "/home/u" "/r" ["sub"; "images"] "d.txt"
                eq_refl Hnames) as (Hrel & _ & Hexcl & _).
  split; [reflexivity|]. split; [exact Hnames|]. split; [exact Hrel|].
  apply Hexcl. right. left. reflexivity.
Defined.

(** Scenarios 2, 3 and 4 of the specification *)
Example scenario_file_in_subfolder :
  main "/home/u" ["generateFileTree.py"; "/r"]
    (Some (Dir [("sub", Dir [("b.txt", NonDir)])]))
  = mkRun (Some [mkFileRecord "sub" "b.txt"]) [] 0.
Proof.
  reflexivity.
Qed.

Example scenario_images :
  main "/home/u" ["generateFileTree.py"; "/r"]
    (Some (Dir [("images", Dir [("c.txt", NonDir)]);
                ("sub", Dir [("images", Dir [("d.txt", NonDir)])])]))
  = mkRun (Some []) [] 0.
Proof.
  reflexivity.
Qed.

Example scenario_git :
  main "/home/u" ["generateFileTree.py"; "/r"]
    (Some (Dir [(".git", Dir [("config", NonDir)])]))
  = mkRun (Some []) [] 0.
Proof.
  reflexivity.
Qed.

(** ** The root [main] passes on *)

Section Root.

Import StrFacts PathFacts SliceFacts NormFacts RelFacts.

Variable cwd : string.

Lemma isabs_append s t :
  PosixPath.isabs s = true -> PosixPath.isabs (s +++ t) = true.
Proof.
  unfold PosixPath.isabs. destruct s as [|a s]; [discriminate|].
  cbn [String.append]. now rewrite !startswith_char.
Qed.


(** A file directly under a normalised root passes [should_include_file]
    unless its name is ["images"]; the walk emits it with an empty
    [folder]. *)
Lemma root_level_file_admitted root_dir item :
  normalised_root root_dir = true ->
  entry_name item = true ->
  should_include_file cwd (PosixPath.join root_dir item) root_dir
  = Return (negb (String.eqb "images" item)).
Proof.
  intros Hroot Hitem.
  change (PosixPath.join root_dir item) with (file_path root_dir [] item).
  rewrite should_include_file_entry by (assumption || now constructor).
  cbn. now rewrite orb_false_r.
Qed.

End Root.

(** C1, at its own example: a root that holds the file [a.txt] and nothing
    else.  The relative path is ["a.txt"], whose [dirname] is [""] and not
    ["."], so the file is admitted and comes out with an empty [folder]. *)
Theorem root_level_file_is_emitted :
  PosixPath.relpath "/home/u" "/r/a.txt" "/r" = Return "a.txt"
  /\ PosixPath.dirname "a.txt" = ""
  /\ should_include_file "/home/u" "/r/a.txt" "/r" = Return true
  /\ main "/home/u" ["generateFileTree.py"; "/r"] (Some (Dir [("a.txt", NonDir)]))
     = mkRun (Some [mkFileRecord "" "a.txt"]) [] 0.
Proof.
  repeat split.
Qed.

(** ** The records of the admitted files *)

Section Records.

Import StrFacts PathFacts SliceFacts.

Variable cwd : string.
Variable root_dir : string.

Lemma base_for_root : base_for [] "".
Proof.
  split; [reflexivity | congruence].
Qed.

Lemma base_for_below segs base item :
  base_for segs base ->
  entry_name item = true ->
  Str.endswith "\" item = false ->
  base_for (segs ++ [item]) (Str.replace "\" "/" (PosixPath.join base item)).
Proof.
  intros [Hbase Hend] Hname Hbs.
  apply entry_name_spec in Hname as (Hne & Hsep & _ & _).
  assert (Hitem : Str.replace "\" "/" item <> ""
                  /\ Str.endswith "/" (Str.replace "\" "/" item) = false).
  { split.
    - intros E. now apply replace_eq_nil in E.
    - rewrite endswith_replace, Hbs, orb_false_r.
      destruct (Str.endswith "/" item) eqn:E; [|reflexivity].
      apply endswith_contains in E. congruence. }
  rewrite join_entry by assumption.
  destruct segs as [|seg segs].
  - subst base. cbn [String.eqb orb String.append app Str.join String.concat
                     Str.replace].
    split; [reflexivity | intros _; exact Hitem].
  - destruct Hend as [Hb Hbend]; [discriminate|].
    apply String.eqb_neq in Hb. rewrite Hb, Hbend. cbn [orb].
    unfold base_for. rewrite join_snoc by discriminate.
    rewrite !replace_app, <- Hbase. subst base.
    rewrite replace_idempotent by reflexivity.
    split; [reflexivity|]. intros _. split.
    + intros E. apply append_eq_nil in E as [_ E]. discriminate.
    + rewrite <- append_assoc. rewrite endswith_app; tauto.
Qed.

Lemma map_filter_flat_map {A B C} (g : B -> C) (h : B -> bool)
  (k : A -> list B) (l : list A) :
  map g (filter h (flat_map k l))
  = flat_map (fun x => map g (filter h (k x))) l.
Proof.
  induction l as [|x l IH]; [reflexivity|].
  cbn [flat_map]. now rewrite filter_app, map_app, IH.
Qed.

Lemma flat_map_ext_Forall {A B} (f g : A -> list B) (l : list A) :
  Forall (fun x => f x = g x) l -> flat_map f l = flat_map g l.
Proof.
  induction 1 as [|x l Hx _ IH]; [reflexivity|].
  cbn [flat_map]. now rewrite Hx, IH.
Qed.

Lemma walk_directory_reachable fs :
  forall segs base stderr,
    listable fs = true ->
    no_trailing_backslash_dirs fs = true ->
    base_for segs base ->
    records_of
      (walk_directory cwd (PosixPath.join_all root_dir segs) base
         (Some root_dir) fs stderr)
    = map (record_for root_dir)
        (filter (admitted cwd root_dir) (reachable_files segs fs)).
Proof.
  induction fs as [|items IH|e] using node_ind;
    intros segs base stderr Hnames Hdirs Hbase.
  - reflexivity.
  - rewrite walk_directory_records_paths by now apply listable_paths.
    cbn [reachable_files resolved]. rewrite map_filter_flat_map.
    apply flat_map_ext_Forall, Forall_forall. intros [item sub] Hin.
    apply all_entries_Dir in Hnames, Hdirs.
    rewrite Forall_forall in IH, Hnames, Hdirs.
    specialize (IH _ Hin). specialize (Hnames _ Hin) as [Hname Hsub].
    specialize (Hdirs _ Hin) as [Hdir Hsubdirs]. cbn [fst snd] in *.
    assert (Hpath : PosixPath.join (PosixPath.join_all root_dir segs) item
                    = PosixPath.join_all root_dir (segs ++ [item])).
    { unfold PosixPath.join_all. now rewrite fold_left_app. }
    unfold entry_records. destruct (isdir sub) eqn:Hisdir.
    + change (should_skip_directory item "")
        with (should_skip_directory item base).
      destruct (should_skip_directory item base); [reflexivity|].
      cbn [negb orb] in Hdir. apply negb_true_iff in Hdir.
      rewrite Hpath. apply IH; try assumption.
      now apply base_for_below.
    + cbn [filter]. unfold admitted, file_path. cbn [fst snd].
      rewrite <- Hpath.
      destruct (should_include_file cwd _ root_dir) as [[|]|err];
        try reflexivity.
      cbn [map]. unfold record_for, file_path. cbn [fst snd].
      rewrite <- Hpath, basename_join
        by (now apply entry_name_spec in Hname).
      destruct Hbase as [-> _].
      now rewrite replace_idempotent.
  - destruct e; reflexivity.
Qed.

(** C4, as the code has it: where no directory has a name that ends in a
    backslash, the output is, in the order of the walk, one record for
    every file the walk reaches and [should_include_file] admits, whose
    [folder] is the way from the root to its parent directory with every
    backslash turned into a slash and whose [name] is the base name of its
    path. *)
Theorem records_of_admitted_files fs stderr :
  listable fs = true ->
  no_trailing_backslash_dirs fs = true ->
  records_of (walk_directory cwd root_dir "" (Some root_dir) fs stderr)
  = map (record_for root_dir)
      (filter (admitted cwd root_dir) (reachable_files [] fs)).
Proof.
  intros Hnames Hdirs.
  apply (walk_directory_reachable fs [] "" stderr Hnames Hdirs base_for_root).
Qed.

End Records.

(** Scenario 5 of the specification *)
Lemma records_of_admitted_files_witness :
  let fs := Dir [("sub", Dir [("deep", Dir [("e.txt", NonDir)])])] in
  listable fs = true
  /\ no_trailing_backslash_dirs fs = true
  /\ records_of (walk_directory "/home/u" "/r" "" (Some "/r") fs [])
     = [mkFileRecord "sub/deep" "e.txt"].
Proof.
  intros fs. split; [reflexivity|]. split; [reflexivity|].
  rewrite (records_of_admitted_files "/home/u" "/r" fs [] eq_refl eq_refl).
  reflexivity.
Defined.

Example scenario_nested_file :
  main "/home/u" ["generateFileTree.py"; "/r"]
    (Some (Dir [("sub", Dir [("deep", Dir [("e.txt", NonDir)])])]))
  = mkRun (Some [mkFileRecord "sub/deep" "e.txt"]) [] 0.
Proof.
  reflexivity.
Qed.

(** A directory whose name ends in a backslash: [posixpath.join] finds the
    slash that [replace] made of it and adds none, so [folder] is ["d/y"]
    where the way from the root to the parent, [d\/y], reads ["d//y"] with
    forward slashes.  Nor does the code collapse slashes: for a directory
    named [a\\b] the [folder] is ["a//b"]. *)
Lemma records_of_admitted_files_counterexample :
  let fs := Dir [("d\", Dir [("y", Dir [("f", NonDir)])])] in
  let fs' := Dir [("a\\b", Dir [("f", NonDir)])] in
  (listable fs = true
   /\ main "/home/u" ["generateFileTree.py"; "/r"] (Some fs)
      = mkRun (Some [mkFileRecord "d/y" "f"]) [] 0
   /\ filter (admitted "/home/u" "/r") (reachable_files [] fs)
      = [(["d\"; "y"], "f")]
   /\ PosixPath.relpath "/home/u" "/r/d\/y" "/r" = Return "d\/y"
   /\ record_for "/r" (["d\"; "y"], "f") = mkFileRecord "d//y" "f")
  /\ (listable fs' = true
      /\ main "/home/u" ["generateFileTree.py"; "/r"] (Some fs')
         = mkRun (Some [mkFileRecord "a//b" "f"]) [] 0
      /\ PosixPath.normpath "a//b" = "a/b").
Proof.
  repeat split.
Qed.

(** * Further properties of the script *)

(** ** The records and diagnostics of a listing *)

Section Runs.

Variable cwd : string.

Lemma for_items_run dir_path base root_dir items :
  Forall (fun entry => PosixPath.join dir_path (fst entry) <> "") items ->
  forall results stderr,
    for_items cwd
      (fun item_path rel_path sub =>
         walk_directory cwd item_path rel_path (Some root_dir) sub)
      dir_path base root_dir items results stderr
    = (Return (results
               ++ flat_map (entry_records cwd dir_path base root_dir) items),
       stderr ++ flat_map (entry_diags cwd dir_path base root_dir) items).
Proof.
  induction 1 as [|[item fs] rest Hitem _ IH]; intros results stderr.
  - simpl. now rewrite !app_nil_r.
  - cbn [for_items flat_map]. unfold visit, entry_records, entry_diags.
    cbn [fst] in Hitem.
    destruct (isdir fs).
    + destruct (should_skip_directory item base); [apply IH|].
      rewrite walk_directory_frame.
      pose proof (walk_directory_never_ValueError cwd fs (Some root_dir)
                    (PosixPath.join dir_path item)
                    (Str.replace "\" "/" (PosixPath.join base item)) []
                    Hitem) as Hnv.
      cbv beta in Hnv. unfold records_of.
      destruct (walk_directory cwd _ _ (Some root_dir) fs [])
        as [[sub|[[| |errno]|]] err]; unfold frame; cbn [fst snd app];
        try (now contradiction Hnv);
        rewrite IH, <- ?app_assoc, ?app_nil_r; reflexivity.
    + destruct (should_include_file_returns cwd _ root_dir Hitem) as [b ->].
      destruct b; rewrite IH, <- ?app_assoc; reflexivity.
Qed.

Lemma walk_directory_run dir_path base root_dir items stderr :
  dir_path <> "" ->
  walk_directory cwd dir_path base root_dir (Dir items) stderr
  = (Return (flat_map
               (entry_records cwd dir_path base (resolved dir_path root_dir))
               items),
     stderr
     ++ flat_map (entry_diags cwd dir_path base (resolved dir_path root_dir))
          items).
Proof.
  intros Hp. rewrite walk_directory_Dir. apply for_items_run.
  apply Forall_forall. intros entry _. apply join_nonempty. now left.
Qed.

(** A property of records that the new records of a listing have and that
    the recursive calls keep holds of all the records of the walk. *)
Lemma for_items_records_Forall (P : FileRecord -> Prop)
  recurse dir_path base root_dir items :
  Forall (fun entry =>
            (isdir (snd entry) = false ->
             P (mkFileRecord (Str.replace "\" "/" base) (fst entry)))
            /\ forall ip rp err,
                Forall P (records_of (recurse ip rp (snd entry) err))) items ->
  forall results stderr,
    Forall P results ->
    Forall P
      (records_of
         (for_items cwd recurse dir_path base root_dir items results stderr)).
Proof.
  induction 1 as [|[item fs] rest [Hfile Hsub] _ IH]; intros results stderr Hres.
  - exact Hres.
  - cbn [for_items]. unfold visit. cbn [fst snd] in Hfile, Hsub.
    destruct (isdir fs).
    + destruct (should_skip_directory item base); [now apply IH|].
      specialize (Hsub (PosixPath.join dir_path item)
                       (Str.replace "\" "/" (PosixPath.join base item)) stderr).
      unfold records_of in Hsub.
      destruct (recurse _ _ fs stderr) as [[sub|[[| |errno]|]] err];
        cbn [fst] in Hsub; try (now apply IH).
      * apply IH. apply Forall_app. now split.
      * constructor.
    + destruct (should_include_file cwd _ root_dir) as [[|]|[[| |errno]|]];
        try (now apply IH).
      * apply IH. apply Forall_app. split; [assumption|].
        constructor; [now apply Hfile | constructor].
      * constructor.
Qed.

End Runs.

(** ** What the records hold *)

Section RecordShape.

Import StrFacts PathFacts.

Variable cwd : string.

(** X1: no [folder] of an emitted record holds a backslash, whatever the
    names in the tree and whatever [base] the walk was begun with. *)
Theorem folder_has_no_backslash fs :
  forall dir_path base root_dir stderr,
    Forall (fun rec => Str.contains "\" (folder rec) = false)
      (records_of (walk_directory cwd dir_path base root_dir fs stderr)).
Proof.
  induction fs as [|items IH|e] using node_ind;
    intros dir_path base root_dir stderr.
  - constructor.
  - rewrite walk_directory_Dir.
    apply for_items_records_Forall; [|constructor].
    eapply Forall_impl; [|exact IH]. intros entry Hentry. split.
    + intros _. cbn [folder]. now apply replace_clears.
    + intros ip rp err. apply Hentry.
  - destruct e; constructor.
Qed.

(** As [for_items_records_Forall], with the recursive calls at the paths
    the loop passes to them *)
Lemma for_items_records_at (P : FileRecord -> Prop)
  recurse dir_path base root_dir items :
  Forall (fun entry =>
            (isdir (snd entry) = false ->
             P (mkFileRecord (Str.replace "\" "/" base) (fst entry)))
            /\ (should_skip_directory (fst entry) base = false ->
                forall err,
                  Forall P
                    (records_of
                       (recurse (PosixPath.join dir_path (fst entry))
                          (Str.replace "\" "/"
                             (PosixPath.join base (fst entry)))
                          (snd entry) err)))) items ->
  forall results stderr,
    Forall P results ->
    Forall P
      (records_of
         (for_items cwd recurse dir_path base root_dir items results stderr)).
Proof.
  induction 1 as [|[item fs] rest [Hfile Hsub] _ IH]; intros results stderr Hres.
  - exact Hres.
  - cbn [for_items]. unfold visit. cbn [fst snd] in Hfile, Hsub.
    destruct (isdir fs).
    + destruct (should_skip_directory item base); [now apply IH|].
      specialize (Hsub eq_refl stderr).
      unfold records_of in Hsub.
      destruct (recurse _ _ fs stderr) as [[sub|[[| |errno]|]] err];
        cbn [fst] in Hsub; try (now apply IH).
      * apply IH. apply Forall_app. now split.
      * constructor.
    + destruct (should_include_file cwd _ root_dir) as [[|]|[[| |errno]|]];
        try (now apply IH).
      * apply IH. apply Forall_app. split; [assumption|].
        constructor; [now apply Hfile | constructor].
      * constructor.
Qed.

(** X2: every emitted record stands for a non-directory of the tree: its
    [name] is the name of an entry for which [os.path.isdir] is false, in
    a directory reached through directories that are not skipped, and its
    [folder] is the relative path the calls have built on the way there.
    No record stands for a directory. *)
Theorem records_stand_for_files fs :
  forall dir_path base root_dir stderr,
    Forall (fun rec =>
              exists segs,
                file_at segs (name rec) fs
                /\ folder rec = Str.replace "\" "/" (rel_path_at base segs))
      (records_of (walk_directory cwd dir_path base root_dir fs stderr)).
Proof.
  induction fs as [|items IH|e] using node_ind;
    intros dir_path base root_dir stderr.
  - constructor.
  - rewrite walk_directory_Dir.
    apply for_items_records_at; [|constructor].
    rewrite Forall_forall in IH. apply Forall_forall.
    intros [item sub] Hin. cbn [fst snd]. split.
    + intros Hfile. exists []. split; [|reflexivity].
      destruct sub; try discriminate Hfile. exact Hin.
    + intros Hskip err.
      eapply Forall_impl; [|exact (IH _ Hin _ _ (Some _) err)].
      intros rec (segs & Hat & Hfolder). cbn [snd] in Hat.
      exists (item :: segs). split; [|exact Hfolder].
      cbn [file_at]. split; [exact Hskip|]. now exists sub.
  - destruct e; constructor.
Qed.

End RecordShape.

(** ** What reaches [stderr] and what escapes *)

Section Diagnostics.

Variable cwd : string.

(** An exception leaves [walk_directory] only from its own [os.listdir],
    before anything is printed. *)
Lemma walk_directory_raise dir_path base root_dir fs stderr e printed :
  dir_path <> "" ->
  walk_directory cwd dir_path base root_dir fs stderr = (Raise e, printed) ->
  printed = stderr
  /\ exists errno,
      e = OSError (OtherOSError errno)
      /\ (fs = DirFail (OtherOSError errno)
          \/ (fs = NonDir /\ errno = ENOTDIR)).
Proof.
  intros Hp H. destruct fs as [|items|[| |errno]].
  - cbn in H. injection H as <- <-. split; [reflexivity|].
    exists ENOTDIR. auto.
  - rewrite walk_directory_run in H by assumption. discriminate.
  - cbn in H. discriminate.
  - cbn in H. discriminate.
  - cbn in H. injection H as <- <-. split; [reflexivity|].
    exists errno. auto.
Qed.



Lemma all_listed_quiet fs :
  forall dir_path base root_dir,
    dir_path <> "" ->
    all_entries (fun _ sub => lists sub) fs = true ->
    flat_map (entry_diags cwd dir_path base root_dir)
      match fs with Dir items => items | _ => [] end = [].
Proof.
  induction fs as [|items IH|e] using node_ind;
    intros dir_path base root_dir Hp Hall; try reflexivity.
  apply PathFacts.all_entries_Dir in Hall.
  rewrite Forall_forall in IH, Hall.
  assert (Hnone : Forall (fun entry =>
                            entry_diags cwd dir_path base root_dir entry = [])
                    items).
  { apply Forall_forall. intros [item sub] Hin.
    specialize (IH _ Hin). specialize (Hall _ Hin) as [Hsub Hbelow].
    cbn [fst snd] in *. unfold entry_diags.
    destruct sub as [|subitems|e]; [reflexivity| |discriminate].
    cbn [isdir]. destruct (should_skip_directory item base); [reflexivity|].
    rewrite walk_directory_run by (apply join_nonempty; now left).
    cbn [app]. apply IH; [|assumption].
    apply join_nonempty. now left. }
  clear IH Hall. induction Hnone as [|entry rest Hentry _ IHrest];
    [reflexivity|].
  cbn [flat_map]. now rewrite Hentry, IHrest.
Qed.

(** X4: for absolute paths [dir_path] and [root_dir] (no call asks for the
    working directory then), where every directory that the walk enters
    can be listed, the walk prints nothing: [stderr] is after the call
    what it was before.  Directories below a skipped directory do not
    count. *)
Theorem listable_tree_prints_nothing dir_path base root_dir items stderr :
  PosixPath.isabs dir_path = true ->
  PosixPath.isabs (resolved dir_path root_dir) = true ->
  all_listed (prune (Dir items)) = true ->
  snd (walk_directory cwd dir_path base root_dir (Dir items) stderr) = stderr.
Proof.
  intros Habs _ Hall.
  assert (Hp : dir_path <> "") by (intros ->; discriminate Habs).
  rewrite <- walk_directory_prune.
  unfold all_listed in Hall. apply andb_true_iff in Hall as [_ Hall].
  pose proof (all_listed_quiet (prune (Dir items)) dir_path base
                (resolved dir_path root_dir) Hp Hall) as Hquiet.
  cbn [prune] in Hquiet |- *.
  rewrite walk_directory_run by assumption. cbn [snd].
  rewrite Hquiet. apply app_nil_r.
Qed.

(** X5: when [os.listdir] of a subdirectory raises an [OSError] without a
    handler in [walk_directory], the handler around the entry prints a
    warning that names the entry and the error, and the loop goes on: the
    call returns the records of the other entries, and the warning stands
    between the diagnostics of the entries before and after. *)
Theorem unhandled_listing_error_is_reported dir_path base root_dir before item
  errno after stderr :
  dir_path <> "" ->
  should_skip_directory item base = false ->
  walk_directory cwd dir_path base root_dir
    (Dir (before ++ (item, DirFail (OtherOSError errno)) :: after)) stderr
  = (Return
       (records_of
          (walk_directory cwd dir_path base root_dir (Dir (before ++ after)) [])),
     stderr
     ++ snd (walk_directory cwd dir_path base root_dir (Dir before) [])
     ++ [WarnItemOSError (PosixPath.join dir_path item) (OtherOSError errno)]
     ++ snd (walk_directory cwd dir_path base root_dir (Dir after) [])).
Proof.
  intros Hp Hskip. rewrite !walk_directory_run by assumption.
  unfold records_of. cbn [fst snd app].
  rewrite !flat_map_app. cbn [flat_map].
  unfold entry_records at 2, entry_diags at 2. cbn [isdir].
  rewrite Hskip. cbn. reflexivity.
Qed.

Lemma walk_directory_no_item_permission_warning fs :
  forall dir_path base root_dir,
    dir_path <> "" ->
    Forall (fun d => is_item_permission_warning d = false)
      (snd (walk_directory cwd dir_path base root_dir fs [])).
Proof.
  induction fs as [|items IH|e] using node_ind;
    intros dir_path base root_dir Hp.
  - constructor.
  - rewrite walk_directory_run by assumption. cbn [snd app].
    apply Forall_flat_map. rewrite Forall_forall in IH. apply Forall_forall.
    intros [item sub] Hin. specialize (IH _ Hin). cbn [snd] in IH.
    unfold entry_diags. destruct (isdir sub); [|constructor].
    destruct (should_skip_directory item base); [constructor|].
    assert (Hitem : PosixPath.join dir_path item <> "")
      by (apply join_nonempty; now left).
    specialize (IH (PosixPath.join dir_path item)
                   (Str.replace "\" "/" (PosixPath.join base item))
                   (Some (resolved dir_path root_dir)) Hitem).
    destruct (walk_directory cwd _ _ _ sub []) as [[l|[[| |errno]|]] printed] eqn:H;
      cbn [snd] in IH; try assumption.
    + apply walk_directory_raise in H as (_ & n & E & _); [discriminate|assumption].
    + apply Forall_app. split; [assumption | now repeat constructor].
    + apply Forall_app. split; [assumption | now repeat constructor].
  - destruct e; now repeat constructor.
Qed.

(** X6: no run of [main] prints the warning of the handler
    [except PermissionError] around an entry (line 114): [os.path.isdir]
    does not raise, and a [PermissionError] of [os.listdir] is handled in
    the call that lists. *)
Theorem main_never_warns_item_permission argv target :
  Forall (fun d => is_item_permission_warning d = false)
    (stderr_of (main cwd argv target)).
Proof.
  unfold main. destruct target as [fs|]; [|now repeat constructor].
  destruct (isdir fs); cbn [negb]; [|now repeat constructor].
  pose proof (walk_directory_no_item_permission_warning fs
                (PosixPath.abspath cwd (root_argument argv)) ""
                (Some (PosixPath.abspath cwd (root_argument argv)))
                (abspath_nonempty cwd _)) as H.
  destruct (walk_directory cwd _ _ _ fs []) as [[l|e] printed];
    cbn [snd stderr_of] in *; [assumption|].
  apply Forall_app. split; [assumption | now repeat constructor].
Qed.

End Diagnostics.


Lemma listable_tree_prints_nothing_witness :
  let items :=
    [("images", DirFail PermissionError);
     ("sub", Dir [("b.txt", NonDir); ("deep", Dir [])])] in
  PosixPath.isabs "/r" = true
  /\ PosixPath.isabs (resolved "/r" None) = true
  /\ all_listed (prune (Dir items)) = true
  /\ snd (walk_directory "/home/u" "/r" "" None (Dir items) []) = [].
Proof.
  intros items. split; [reflexivity|]. split; [reflexivity|].
  split; [reflexivity|].
  exact (listable_tree_prints_nothing "/home/u" "/r" "" None items []
           eq_refl eq_refl eq_refl).
Defined.

Lemma unhandled_listing_error_is_reported_witness :
  "/r" <> ""
  /\ should_skip_directory "bad" "" = false
  /\ walk_directory "/home/u" "/r" "" None
       (Dir ([("locked", DirFail PermissionError)]
             ++ ("bad", DirFail (OtherOSError 5))
                :: [("sub", Dir [("b.txt", NonDir)])])) []
     = (Return [mkFileRecord "sub" "b.txt"],
        [WarnDirNoPermission "/r/locked";
         WarnItemOSError "/r/bad" (OtherOSError 5)]).
Proof.
  split; [discriminate|]. split; [reflexivity|].
  etransitivity;
    [exact (unhandled_listing_error_is_reported "/home/u" "/r" "" None
              [("locked", DirFail PermissionError)] "bad" 5
              [("sub", Dir [("b.txt", NonDir)])] []
              ltac:(discriminate) eq_refl)|].
  reflexivity.
Defined.

(** ** The output does not depend on where the root lies *)

Section RootFree.

Import StrFacts PathFacts SliceFacts NormFacts RelFacts.

Variables cwd1 cwd2 root1 root2 : string.
Hypothesis Hroot1 : normalised_root root1 = true.
Hypothesis Hroot2 : normalised_root root2 = true.

Lemma join_all_snoc root segs item :
  PosixPath.join (PosixPath.join_all root segs) item
  = PosixPath.join_all root (segs ++ [item]).
Proof.
  unfold PosixPath.join_all. now rewrite fold_left_app.
Qed.

Lemma walk_directory_root_free fs :
  forall segs base stderr1 stderr2,
    listable fs = true ->
    Forall (fun seg => entry_name seg = true) segs ->
    records_of
      (walk_directory cwd1 (PosixPath.join_all root1 segs) base (Some root1)
         fs stderr1)
    = records_of
        (walk_directory cwd2 (PosixPath.join_all root2 segs) base (Some root2)
           fs stderr2).
Proof.
  induction fs as [|items IH|e] using node_ind;
    intros segs base stderr1 stderr2 Hnames Hsegs.
  - reflexivity.
  - rewrite !walk_directory_records_paths by now apply listable_paths.
    cbn [resolved]. apply flat_map_ext_Forall, Forall_forall.
    intros [item sub] Hin. apply all_entries_Dir in Hnames.
    rewrite Forall_forall in IH, Hnames.
    specialize (IH _ Hin). specialize (Hnames _ Hin) as [Hname Hsub].
    cbn [fst snd] in *.
    assert (Hsegs' : Forall (fun seg => entry_name seg = true) (segs ++ [item]))
      by (apply Forall_app; split; [assumption | now constructor]).
    unfold entry_records. rewrite !join_all_snoc.
    destruct (isdir sub).
    + destruct (should_skip_directory item base); [reflexivity|].
      now apply IH.
    + change (PosixPath.join_all root1 (segs ++ [item]))
        with (file_path root1 segs item).
      change (PosixPath.join_all root2 (segs ++ [item]))
        with (file_path root2 segs item).
      now rewrite !should_include_file_entry.
  - destruct e; reflexivity.
Qed.

End RootFree.

(** X7: the records of a scan depend on the tree alone: two scans of one
    tree from two normalised absolute roots, under any working directories,
    return the same list.  The location of the root, even below a directory
    named ["images"], has no part in [should_include_file]. *)
Theorem records_do_not_depend_on_root cwd1 cwd2 root1 root2 fs stderr1 stderr2 :
  normalised_root root1 = true ->
  normalised_root root2 = true ->
  listable fs = true ->
  records_of (walk_directory cwd1 root1 "" (Some root1) fs stderr1)
  = records_of (walk_directory cwd2 root2 "" (Some root2) fs stderr2).
Proof.
  intros H1 H2 Hnames.
  apply (walk_directory_root_free cwd1 cwd2 root1 root2 H1 H2 fs [] ""
           stderr1 stderr2 Hnames).
  constructor.
Qed.

Lemma records_do_not_depend_on_root_witness :
  let fs := Dir [("a.txt", NonDir); ("sub", Dir [("b.txt", NonDir); ("images", NonDir)])] in
  normalised_root "/srv/images/site" = true
  /\ normalised_root "/r" = true
  /\ listable fs = true
  /\ records_of (walk_directory "/home/u" "/srv/images/site" ""
                   (Some "/srv/images/site") fs [])
     = records_of (walk_directory "/" "/r" "" (Some "/r") fs []).
Proof.
  intros fs. split; [reflexivity|]. split; [reflexivity|].
  split; [reflexivity|].
  exact (records_do_not_depend_on_root "/home/u" "/" "/srv/images/site" "/r"
           fs [] [] eq_refl eq_refl eq_refl).
Defined.

(** ** The two filters together *)

Section Filters.

Import StrFacts PathFacts SliceFacts NormFacts RelFacts.

Variable cwd : string.

Lemma entered_not_images seg :
  entered seg = true -> String.eqb "images" seg = false.
Proof.
  intros H. destruct (String.eqb_spec "images" seg) as [<-|]; [|reflexivity].
  discriminate.
Qed.

(** The directories on the way to a reached file were all let pass by
    [should_skip_directory]. *)
Lemma reachable_files_entered fs :
  forall segs,
    listable fs = true ->
    Forall (fun seg => entered seg = true) segs ->
    Forall (fun file => Forall (fun seg => entered seg = true) (fst file)
                        /\ entry_name (snd file) = true)
      (reachable_files segs fs).
Proof.
  induction fs as [|items IH|e] using node_ind; intros segs Hnames Hsegs;
    try constructor.
  cbn [reachable_files]. apply Forall_flat_map, Forall_forall.
  intros [item sub] Hin. apply all_entries_Dir in Hnames.
  rewrite Forall_forall in IH, Hnames.
  specialize (IH _ Hin). specialize (Hnames _ Hin) as [Hname Hsub].
  cbn [fst snd] in *. destruct (isdir sub).
  - destruct (should_skip_directory item "") eqn:Hskip; [constructor|].
    apply IH; [assumption|]. apply Forall_app. split; [assumption|].
    constructor; [|constructor]. unfold entered. now rewrite Hname, Hskip.
  - constructor; [|constructor]. now split.
Qed.

Lemma reached_file_filter root_dir fs segs n :
  normalised_root root_dir = true ->
  listable fs = true ->
  In (segs, n) (reachable_files [] fs) ->
  should_include_file cwd (file_path root_dir segs n) root_dir
  = Return (negb (String.eqb n "images")).
Proof.
  intros Hroot Hnames Hin.
  pose proof (reachable_files_entered fs [] Hnames ltac:(constructor)) as H.
  rewrite Forall_forall in H. specialize (H _ Hin) as [Hsegs Hn].
  cbn [fst snd] in *.
  rewrite should_include_file_entry; [|assumption|].
  - f_equal. f_equal. unfold Str.mem. rewrite existsb_app. cbn [existsb].
    rewrite orb_false_r, (String.eqb_sym "images" n).
    replace (existsb (String.eqb "images") segs) with false; [reflexivity|].
    symmetry. clear Hin.
    induction Hsegs as [|seg segs Hseg _ IHsegs]; [reflexivity|].
    cbn [existsb]. now rewrite (entered_not_images seg Hseg), IHsegs.
  - apply Forall_app. split; [|now constructor].
    eapply Forall_impl; [|exact Hsegs]. intros seg Hseg.
    unfold entered in Hseg. now apply andb_true_iff in Hseg.
Qed.

(** X8: for a file the walk reaches from a normalised root,
    [should_include_file] answers only whether the file's own name is not
    exactly ["images"]: none of the directories above it is named so, since
    [should_skip_directory] has let each of them pass. *)
Theorem reached_files_are_filtered_by_name root_dir fs :
  normalised_root root_dir = true ->
  listable fs = true ->
  Forall (fun file =>
            should_include_file cwd (file_path root_dir (fst file) (snd file))
              root_dir
            = Return (negb (String.eqb (snd file) "images"))
            /\ Forall (fun seg => should_skip_directory seg "" = false)
                 (fst file))
    (reachable_files [] fs).
Proof.
  intros Hroot Hnames. apply Forall_forall. intros [segs n] Hin. split.
  - now apply (reached_file_filter root_dir fs).
  - pose proof (reachable_files_entered fs [] Hnames ltac:(constructor)) as H.
    rewrite Forall_forall in H. specialize (H _ Hin) as [Hsegs _].
    eapply Forall_impl; [|exact Hsegs]. intros seg Hseg.
    unfold entered in Hseg. apply andb_true_iff in Hseg as [_ Hseg].
    now apply negb_true_iff in Hseg.
Qed.

End Filters.

Lemma reached_files_are_filtered_by_name_witness :
  let fs := Dir [("a.txt", NonDir);
                 ("sub", Dir [("images", NonDir); ("Images", NonDir)])] in
  normalised_root "/r" = true
  /\ listable fs = true
  /\ reachable_files [] fs
     = [([], "a.txt"); (["sub"], "images"); (["sub"], "Images")]
  /\ should_include_file "/home/u" "/r/sub/images" "/r" = Return false
  /\ should_include_file "/home/u" "/r/sub/Images" "/r" = Return true.
Proof.
  intros fs.
  pose proof (reached_files_are_filtered_by_name "/home/u" "/r" fs
                eq_refl eq_refl) as H.
  split; [reflexivity|]. split; [reflexivity|]. split; [reflexivity|].
  inversion H as [|? ? _ H1]; subst. inversion H1 as [|? ? [H2 _] H3]; subst.
  inversion H3 as [|? ? [H4 _] _]; subst.
  split; [exact H2 | exact H4].
Defined.

(** ** The parameter [base] *)

Section Base.

Import StrFacts PathFacts SliceFacts.

Variable cwd : string.
Variable base : string.
Hypothesis Hbase : base <> "".
Hypothesis Hend : Str.endswith "/" base = false.
Hypothesis Hbs : Str.contains "\" base = false.

Lemma replace_rebased inner :
  Str.replace "\" "/" (rebased base inner)
  = rebased base (Str.replace "\" "/" inner).
Proof.
  unfold rebased. destruct inner as [|a inner].
  - cbn [String.eqb Str.replace]. now apply replace_without.
  - cbn [String.eqb Str.replace]. rewrite !replace_app.
    now rewrite (replace_without _ _ base Hbs).
Qed.

Lemma rebased_nonempty inner :
  inner <> "" -> rebased base inner = base +++ "/" +++ inner.
Proof.
  intros H. unfold rebased. apply String.eqb_neq in H. now rewrite H.
Qed.

(** One level down, the relative bases of the two walks stay in step. *)
Lemma rebased_below inner item :
  entry_name item = true ->
  Str.replace "\" "/" (PosixPath.join (rebased base inner) item)
  = rebased base (Str.replace "\" "/" (PosixPath.join inner item)).
Proof.
  intros Hname. apply entry_name_spec in Hname as (Hne & Hsep & _).
  rewrite !join_entry by assumption. rewrite <- replace_rebased.
  f_equal.
  destruct (String.eqb_spec inner "") as [->|Hinner].
  - change (rebased base "") with base. cbn [orb].
    change ("" +++ item) with item.
    pose proof Hbase as Hb. apply String.eqb_neq in Hb.
    rewrite Hb, Hend. cbn [orb]. now rewrite rebased_nonempty.
  - rewrite (rebased_nonempty inner Hinner). cbn [orb].
    assert (Hne' : String.eqb (base +++ "/" +++ inner) "" = false).
    { apply String.eqb_neq. intros E. apply append_eq_nil in E as [E _].
      contradiction. }
    rewrite Hne'. cbn [orb].
    rewrite <- (append_assoc base "/" inner).
    rewrite endswith_app by assumption.
    rewrite (append_assoc base "/" inner).
    destruct (Str.endswith "/" inner).
    + rewrite rebased_nonempty, !append_assoc; [reflexivity|].
      intros E. apply append_eq_nil in E as [E _]. contradiction.
    + rewrite rebased_nonempty, !append_assoc; [reflexivity|].
      intros E. apply append_eq_nil in E as [E _]. contradiction.
Qed.

Lemma map_over_flat_map {A B C} (g : B -> C) (k : A -> list B) (l : list A) :
  map g (flat_map k l) = flat_map (fun x => map g (k x)) l.
Proof.
  induction l as [|x l IH]; [reflexivity|].
  cbn [flat_map]. now rewrite map_app, IH.
Qed.

Lemma walk_directory_rebased fs :
  forall dir_path inner root_dir stderr,
    listable fs = true ->
    records_of
      (walk_directory cwd dir_path (rebased base inner) root_dir fs stderr)
    = map (below base)
        (records_of (walk_directory cwd dir_path inner root_dir fs stderr)).
Proof.
  induction fs as [|items IH|e] using node_ind;
    intros dir_path inner root_dir stderr Hnames.
  - reflexivity.
  - rewrite !walk_directory_records_paths by now apply listable_paths.
    rewrite map_over_flat_map.
    apply flat_map_ext_Forall, Forall_forall. intros [item sub] Hin.
    apply all_entries_Dir in Hnames. rewrite Forall_forall in IH, Hnames.
    specialize (IH _ Hin). specialize (Hnames _ Hin) as [Hname Hsub].
    cbn [fst snd] in *. unfold entry_records.
    change (should_skip_directory item (rebased base inner))
      with (should_skip_directory item inner).
    destruct (isdir sub).
    + destruct (should_skip_directory item inner); [reflexivity|].
      rewrite rebased_below by assumption. now apply IH.
    + destruct (should_include_file cwd _ _) as [[|]|err]; try reflexivity.
      cbn [map]. unfold below. cbn [folder name].
      rewrite replace_rebased. reflexivity.
  - destruct e; reflexivity.
Qed.

(** X10: a walk begun with a relative base [base] (not empty, without
    backslash, not ending in a slash) returns the records of the walk begun
    with [""], each with its [folder] put below [base]: [base] itself for
    the files of [dir_path], [base/folder] for the others. *)
Theorem base_prefixes_folders fs dir_path root_dir stderr :
  listable fs = true ->
  records_of (walk_directory cwd dir_path base root_dir fs stderr)
  = map (below base)
      (records_of (walk_directory cwd dir_path "" root_dir fs stderr)).
Proof.
  intros Hnames.
  exact (walk_directory_rebased fs dir_path "" root_dir stderr Hnames).
Qed.

End Base.

Lemma base_prefixes_folders_witness :
  let fs := Dir [("a.txt", NonDir); ("sub", Dir [("b.txt", NonDir)])] in
  "docs/v1" <> ""
  /\ Str.endswith "/" "docs/v1" = false
  /\ Str.contains "\" "docs/v1" = false
  /\ listable fs = true
  /\ records_of (walk_directory "/home/u" "/r" "docs/v1" (Some "/r") fs [])
     = [mkFileRecord "docs/v1" "a.txt"; mkFileRecord "docs/v1/sub" "b.txt"].
Proof.
  intros fs. split; [discriminate|]. split; [reflexivity|].
  split; [reflexivity|]. split; [reflexivity|].
  etransitivity;
    [exact (base_prefixes_folders "/home/u" "docs/v1" ltac:(discriminate)
              eq_refl eq_refl fs "/r" (Some "/r") [] eq_refl)|].
  reflexivity.
Defined.

(** ** The argument of [main] *)

Section Argument.

Import StrFacts PathFacts SliceFacts NormFacts RelFacts.

Variable cwd : string.
Hypothesis Hcwd : normalised_root cwd = true.









End Argument.



(** ** All that is printed *)

Section AllDiagnostics.

Variable cwd : string.

Lemma walk_directory_diagnostics fs :
  forall dir_path base root_dir,
    dir_path <> "" ->
    snd (walk_directory cwd dir_path base root_dir fs [])
    = diagnostics dir_path fs.
Proof.
  induction fs as [|items IH|e] using node_ind;
    intros dir_path base root_dir Hp.
  - reflexivity.
  - rewrite walk_directory_run by assumption. cbn [snd app diagnostics].
    apply flat_map_ext_Forall. rewrite Forall_forall in IH.
    apply Forall_forall. intros [item sub] Hin. specialize (IH _ Hin).
    cbn [fst snd] in *. unfold entry_diags.
    destruct (isdir sub) eqn:Hdir; [|reflexivity].
    change (should_skip_directory item "")
      with (should_skip_directory item base).
    destruct (should_skip_directory item base); [reflexivity|].
    cbn [negb andb].
    assert (Hitem : PosixPath.join dir_path item <> "")
      by (apply join_nonempty; now left).
    specialize (IH (PosixPath.join dir_path item)
                   (Str.replace "\" "/" (PosixPath.join base item))
                   (Some (resolved dir_path root_dir)) Hitem).
    destruct (walk_directory cwd _ _ _ sub []) as [[l|e] printed] eqn:H;
      cbn [snd] in IH; subst printed.
    + destruct sub as [|subitems|[| |errno]]; cbn [handler_line];
        try (now rewrite app_nil_r); cbn in H; discriminate.
    + apply walk_directory_raise in H as (_ & n & -> & [-> | [-> _]]);
        try assumption; [reflexivity | discriminate].
  - destruct e; reflexivity.
Qed.

(** X13: for absolute paths [dir_path] and [root_dir], the lines a call
    that returns has printed are, in the order of the walk, one line for
    every directory that is entered and whose listing fails, and nothing
    else: the permission warning or the missing-directory line of the
    call that lists, or the line of the handler around the entry for any
    other [OSError]; each names the path of that directory. *)
Theorem walk_directory_prints_failures fs dir_path base root_dir stderr l
  printed :
  PosixPath.isabs dir_path = true ->
  PosixPath.isabs (resolved dir_path root_dir) = true ->
  walk_directory cwd dir_path base root_dir fs stderr = (Return l, printed) ->
  printed = stderr ++ diagnostics dir_path fs.
Proof.
  intros Habs _ Hwalk.
  assert (Hp : dir_path <> "") by (intros ->; discriminate Habs).
  rewrite walk_directory_frame in Hwalk. unfold frame in Hwalk.
  injection Hwalk as _ <-. now rewrite walk_directory_diagnostics.
Qed.

End AllDiagnostics.

Lemma walk_directory_prints_failures_witness :
  let fs :=
    Dir [("locked", DirFail PermissionError);
         ("images", DirFail PermissionError);
         ("sub", Dir [("gone", DirFail FileNotFoundError);
                      ("bad", DirFail (OtherOSError 5));
                      ("b.txt", NonDir)])] in
  let printed :=
    [WarnDirNoPermission "/r/locked"; ErrDirMissing "/r/sub/gone";
     WarnItemOSError "/r/sub/bad" (OtherOSError 5)] in
  PosixPath.isabs "/r" = true
  /\ PosixPath.isabs (resolved "/r" None) = true
  /\ walk_directory "/home/u" "/r" "" None fs []
     = (Return [mkFileRecord "sub" "b.txt"], printed)
  /\ printed = [] ++ diagnostics "/r" fs.
Proof.
  intros fs printed. split; [reflexivity|]. split; [reflexivity|].
  split; [reflexivity|].
  exact (walk_directory_prints_failures "/home/u" fs "/r" "" None []
           [mkFileRecord "sub" "b.txt"] printed eq_refl eq_refl eq_refl).
Defined.

(** ** No record twice *)

Section NoRepeat.

Import StrFacts PathFacts SliceFacts.

Variable cwd : string.
Variable root_dir : string.

Lemma no_repeat_NoDup l : no_repeat l = true -> NoDup l.
Proof.
  induction l as [|x l IH]; [constructor|]. cbn [no_repeat].
  intros H. apply andb_true_iff in H as [Hx Hl].
  constructor; [|now apply IH].
  intros Hin. apply mem_In in Hin. rewrite Hin in Hx. discriminate.
Qed.

Lemma all_entries_impl (ok1 ok2 : string -> node -> bool) fs :
  (forall n sub, ok1 n sub = true -> ok2 n sub = true) ->
  all_entries ok1 fs = true -> all_entries ok2 fs = true.
Proof.
  intros Himpl. induction fs as [|items IH|e] using node_ind; try reflexivity.
  cbn [all_entries]. rewrite !forallb_forall. intros H entry Hin.
  rewrite Forall_forall in IH. specialize (H entry Hin).
  apply andb_true_iff in H as [H1 H2].
  rewrite (Himpl _ _ H1). now apply IH.
Qed.

Lemma no_backslash_no_trailing fs :
  no_backslash_dirs fs = true -> no_trailing_backslash_dirs fs = true.
Proof.
  apply all_entries_impl. intros n sub H.
  destruct (isdir sub); [|reflexivity]. cbn [negb orb] in *.
  apply negb_true_iff in H. apply negb_true_iff.
  destruct (Str.endswith "\" n) eqn:E; [|reflexivity].
  apply endswith_contains in E. congruence.
Qed.

(** The way to a reached file begins with the way to where the walk began. *)
Lemma reachable_files_prefix fs :
  forall segs file,
    In file (reachable_files segs fs) -> exists rest, fst file = segs ++ rest.
Proof.
  induction fs as [|items IH|e] using node_ind; intros segs file Hin;
    try contradiction.
  cbn [reachable_files] in Hin. apply in_flat_map in Hin as ([item sub] & Hentry & Hin).
  rewrite Forall_forall in IH. specialize (IH _ Hentry). cbn [fst snd] in *.
  destruct (isdir sub).
  - destruct (should_skip_directory item ""); [contradiction|].
    apply IH in Hin as [rest ->]. exists (item :: rest).
    now rewrite <- app_assoc.
  - destruct Hin as [<-|[]]. exists []. cbn. now rewrite app_nil_r.
Qed.

(** The name of the entry of the listing through which a file is reached *)
Lemma reachable_files_through segs item sub file :
  In file
    (if isdir sub then
       if should_skip_directory item "" then []
       else reachable_files (segs ++ [item]) sub
     else [(segs, item)]) ->
  nth_error (fst file ++ [snd file]) (List.length segs) = Some item.
Proof.
  destruct (isdir sub).
  - destruct (should_skip_directory item ""); [contradiction|].
    intros Hin. apply reachable_files_prefix in Hin as [rest ->].
    rewrite <- !app_assoc. rewrite nth_error_app2 by lia.
    now rewrite Nat.sub_diag.
  - intros [<-|[]]. cbn [fst snd]. rewrite nth_error_app2 by lia.
    now rewrite Nat.sub_diag.
Qed.

Lemma reachable_files_NoDup fs :
  forall segs, distinct_names fs = true -> NoDup (reachable_files segs fs).
Proof.
  induction fs as [|items IH|e] using node_ind; intros segs Hdist;
    try constructor.
  cbn [distinct_names] in Hdist. apply andb_true_iff in Hdist as [Hnames Hsub].
  apply no_repeat_NoDup in Hnames. rewrite forallb_forall in Hsub.
  cbn [reachable_files].
  induction items as [|[item sub] rest IHrest]; [constructor|].
  cbn [flat_map map fst snd] in *.
  inversion IH as [|? ? Hhere Hrest]; subst.
  inversion Hnames as [|? ? Hfresh Hnodup]; subst.
  apply NoDup_app.
  - destruct (isdir sub); [|repeat constructor; intros []].
    destruct (should_skip_directory item ""); [constructor|].
    apply Hhere. apply Hsub. now left.
  - apply IHrest; try assumption.
    intros entry Hin. apply Hsub. now right.
  - intros file Hin Hin'.
    apply in_flat_map in Hin' as ([item' sub'] & Hentry & Hin').
    cbn [fst snd] in Hin'.
    apply reachable_files_through in Hin, Hin'.
    rewrite Hin in Hin'. injection Hin' as ->.
    apply Hfresh. apply in_map_iff. now exists (item', sub').
Qed.

Lemma reachable_files_names fs :
  forall segs,
    listable fs = true ->
    no_backslash_dirs fs = true ->
    Forall (fun seg => entry_name seg = true /\ Str.contains "\" seg = false)
      segs ->
    Forall (fun file =>
              Forall (fun seg => entry_name seg = true
                                 /\ Str.contains "\" seg = false) (fst file)
              /\ entry_name (snd file) = true)
      (reachable_files segs fs).
Proof.
  induction fs as [|items IH|e] using node_ind;
    intros segs Hnames Hdirs Hsegs; try constructor.
  cbn [reachable_files]. apply Forall_flat_map, Forall_forall.
  intros [item sub] Hin. apply all_entries_Dir in Hnames, Hdirs.
  rewrite Forall_forall in IH, Hnames, Hdirs.
  specialize (IH _ Hin). specialize (Hnames _ Hin) as [Hname Hsub].
  specialize (Hdirs _ Hin) as [Hdir Hsubdirs].
  cbn [fst snd] in *. destruct (isdir sub).
  - destruct (should_skip_directory item ""); [constructor|].
    cbn [negb orb] in Hdir. apply negb_true_iff in Hdir.
    apply IH; try assumption. apply Forall_app. split; [assumption|].
    now repeat constructor.
  - constructor; [|constructor]. now split.
Qed.

(** Joined names tell the names. *)
Lemma join_names_injective l m :
  Forall (fun seg => entry_name seg = true) l ->
  Forall (fun seg => entry_name seg = true) m ->
  Str.join "/" l = Str.join "/" m -> l = m.
Proof.
  intros Hl Hm E.
  assert (Hsplit : forall k, Forall (fun seg => entry_name seg = true) k ->
                             k <> [] -> Str.split "/" (Str.join "/" k) = k).
  { intros k Hk Hne. apply split_join; [assumption|].
    eapply Forall_impl; [|exact Hk]. intros n Hn.
    now apply entry_name_spec in Hn. }
  assert (Hempty : forall k, Forall (fun seg => entry_name seg = true) k ->
                             Str.join "/" k = "" -> k = []).
  { intros [|x k] Hk Ek; [reflexivity|].
    destruct (NormFacts.join_names_end (x :: k) ltac:(discriminate) Hk)
      as [Hne _]. contradiction. }
  destruct l as [|x l].
  - symmetry. apply Hempty; [assumption | now rewrite <- E].
  - destruct m as [|y m].
    + apply Hempty; [assumption | now rewrite E].
    + rewrite <- (Hsplit (x :: l)), <- (Hsplit (y :: m)), E
        by (assumption || discriminate).
      reflexivity.
Qed.

(** X14: where the names of every listing are pairwise different and no
    directory has a backslash in its name, no record is emitted twice:
    different files give records that differ in [folder] or in [name]. *)
Theorem records_are_distinct fs stderr :
  listable fs = true ->
  no_backslash_dirs fs = true ->
  distinct_names fs = true ->
  NoDup (records_of (walk_directory cwd root_dir "" (Some root_dir) fs stderr)).
Proof.
  intros Hnames Hdirs Hdist.
  change root_dir with (PosixPath.join_all root_dir []) at 1.
  rewrite (walk_directory_reachable cwd root_dir fs [] "" stderr Hnames
             (no_backslash_no_trailing fs Hdirs) base_for_root).
  pose proof (reachable_files_names fs [] Hnames Hdirs ltac:(constructor))
    as Hfiles.
  rewrite Forall_forall in Hfiles.
  apply NoDup_map_NoDup_ForallPairs;
    [|apply NoDup_filter; now apply reachable_files_NoDup].
  intros [segs n] [segs' n'] Hin Hin' E.
  apply filter_In in Hin as [Hin _]. apply filter_In in Hin' as [Hin' _].
  specialize (Hfiles _ Hin) as H. specialize (Hfiles _ Hin') as H'.
  destruct H as [Hsegs Hn]. destruct H' as [Hsegs' Hn'].
  cbn [fst snd] in *.
  assert (Hplain : forall k,
             Forall (fun seg => entry_name seg = true
                                /\ Str.contains "\" seg = false) k ->
             Forall (fun seg => entry_name seg = true) k
             /\ Str.replace "\" "/" (Str.join "/" k) = Str.join "/" k).
  { intros k Hk. split.
    - eapply Forall_impl; [|exact Hk]. now intros seg [Hs _].
    - apply replace_without. induction Hk as [|x k [_ Hx] _ IHk];
        [reflexivity|].
      destruct k as [|y k]; [exact Hx|].
      rewrite join_cons, !contains_app, Hx, IHk. reflexivity. }
  destruct (Hplain _ Hsegs) as [Hs Hr]. destruct (Hplain _ Hsegs') as [Hs' Hr'].
  unfold record_for, file_path in E. cbn [fst snd] in E.
  injection E as Efolder Ename.
  rewrite <- !join_all_snoc in Ename.
  rewrite !basename_join in Ename
    by (match goal with H : entry_name ?x = true |- Str.contains "/" ?x = false
        => now apply entry_name_spec in H end).
  rewrite Hr, Hr' in Efolder.
  apply join_names_injective in Efolder; [|assumption|assumption].
  now subst.
Qed.

End NoRepeat.

Lemma records_are_distinct_witness :
  let fs := Dir [("a", Dir [("f", NonDir); ("g", NonDir)]);
                 ("b", Dir [("f", NonDir)]); ("f", NonDir)] in
  listable fs = true
  /\ no_backslash_dirs fs = true
  /\ distinct_names fs = true
  /\ NoDup (records_of (walk_directory "/home/u" "/r" "" (Some "/r") fs [])).
Proof.
  intros fs. split; [reflexivity|]. split; [reflexivity|].
  split; [reflexivity|].
  exact (records_are_distinct "/home/u" "/r" fs [] eq_refl eq_refl eq_refl).
Defined.

(** With a backslash in a directory name two files can share a record: the
    directory [a\b] and the directory [b] below [a] both read ["a/b"]. *)
Example backslash_names_can_repeat_a_record :
  records_of
    (walk_directory "/home/u" "/r" "" (Some "/r")
       (Dir [("a\b", Dir [("f", NonDir)]);
             ("a", Dir [("b", Dir [("f", NonDir)])])]) [])
  = [mkFileRecord "a/b" "f"; mkFileRecord "a/b" "f"].
Proof.
  reflexivity.
Qed.

(** ** The run of the process *)

Section WholeRun.

Import StrFacts PathFacts SliceFacts NormFacts RelFacts.

Lemma isabs_join path item :
  PosixPath.isabs path = true -> PosixPath.isabs (PosixPath.join path item) = true.
Proof.
  intros Habs. unfold PosixPath.join.
  destruct (Str.startswith "/" item) eqn:Hitem; [exact Hitem|].
  destruct (_ || _); now apply isabs_append.
Qed.

(** For absolute paths [relpath] does not ask for the working directory. *)
Lemma should_include_file_absolute cwd1 cwd2 file_path root_dir :
  PosixPath.isabs file_path = true ->
  PosixPath.isabs root_dir = true ->
  should_include_file cwd1 file_path root_dir
  = should_include_file cwd2 file_path root_dir.
Proof.
  intros Hfile Hroot.
  unfold should_include_file, PosixPath.relpath, PosixPath.abspath.
  now rewrite Hfile, Hroot.
Qed.

(** X15: with absolute paths [dir_path] and [root_dir], as [main] passes
    them, no call of the walk asks for the working directory: records,
    diagnostics and exceptions are the same under any two. *)
Theorem walk_directory_ignores_cwd cwd1 cwd2 fs :
  forall dir_path base root_dir stderr,
    PosixPath.isabs dir_path = true ->
    PosixPath.isabs (resolved dir_path root_dir) = true ->
    walk_directory cwd1 dir_path base root_dir fs stderr
    = walk_directory cwd2 dir_path base root_dir fs stderr.
Proof.
  induction fs as [|items IH|e] using node_ind;
    intros dir_path base root_dir stderr Hdir Hroot; try reflexivity.
  rewrite !walk_directory_Dir.
  generalize (@nil FileRecord) as results. revert stderr.
  induction IH as [|[item sub] rest Hsub _ IHrest]; intros stderr results;
    [reflexivity|].
  cbn [for_items]. unfold visit. cbn [snd] in Hsub.
  pose proof (isabs_join dir_path item Hdir) as Hitem.
  destruct (isdir sub).
  - destruct (should_skip_directory item base); [apply IHrest|].
    rewrite (Hsub (PosixPath.join dir_path item)
               (Str.replace "\" "/" (PosixPath.join base item))
               (Some (resolved dir_path root_dir)) stderr Hitem Hroot).
    destruct (walk_directory cwd2 _ _ _ sub stderr)
      as [[l|[[| |errno]|]] err]; first [apply IHrest | reflexivity].
  - rewrite (should_include_file_absolute cwd1 cwd2) by assumption.
    destruct (should_include_file cwd2 _ _) as [[|]|[[| |errno]|]];
      first [apply IHrest | reflexivity].
Qed.



End WholeRun.

Lemma walk_directory_ignores_cwd_witness :
  let fs := Dir [("locked", DirFail PermissionError);
                 ("sub", Dir [("b.txt", NonDir); ("images", NonDir)])] in
  PosixPath.isabs "/r" = true
  /\ PosixPath.isabs (resolved "/r" None) = true
  /\ walk_directory "" "/r" "" None fs []
     = walk_directory "/home/u" "/r" "" None fs [].
Proof.
  intros fs. split; [reflexivity|]. split; [reflexivity|].
  exact (walk_directory_ignores_cwd "" "/home/u" fs "/r" "" None []
           eq_refl eq_refl).
Defined.

